(** * The SNLI data-loading pipeline of notebook 15.4

    A shallow embedding of [read_snli], [SNLIDataset] and [load_data_snli]
    (Dive-into-DL-paddlepaddle, docs/15_natural-language-processing-applications/15.4.ipynb)
    together with the properties its specification states about them.

    Python strings are sequences of Unicode code points, so a character is
    a code point in [N] and a string is a list of characters.  Exceptions
    are values of an error type; a Python expression that may raise
    evaluates to a [result]. *)

From Equations Require Import Equations.
From Stdlib Require Import Ascii String.
From Stdlib Require Import List Arith NArith ZArith Lia Bool Permutation.
Import ListNotations.

(** ** Characters and strings *)

Module Py.

Definition char := N.
Definition str := list char.

Definition tab : char := 9%N.
Definition newline : char := 10%N.
Definition space : char := 32%N.
Definition lparen : char := 40%N.
Definition rparen : char := 41%N.
Definition backslash : char := 92%N.

(** The escape sequences of a Python string literal that the examples
    use: a backslash followed by t, n or a backslash. *)
Fixpoint unescape (s : str) : str :=
  match s with
  | [] => []
  | c :: t =>
      match t with
      | d :: t' =>
          if (c =? backslash)%N then
            if (d =? 116)%N then tab :: unescape t'
            else if (d =? 110)%N then newline :: unescape t'
            else if (d =? backslash)%N then backslash :: unescape t'
            else c :: unescape t
          else c :: unescape t
      | [] => [c]
      end
  end.

(** A string literal of the source, as the list of its code points. *)
Definition lit (s : string) : str :=
  unescape (map N_of_ascii (list_ascii_of_string s)).

Definition str_eq_dec : forall a b : str, {a = b} + {a <> b} :=
  list_eq_dec N.eq_dec.

(** Whitespace as CPython's [Py_UNICODE_ISSPACE] decides it; both the
    [\s] class of [re] (on [str] patterns) and [str.strip] use it. *)
Definition isspace (c : char) : bool :=
  ((9 <=? c) && (c <=? 13) || (28 <=? c) && (c <=? 32)
   || (c =? 133) || (c =? 160) || (c =? 5760)
   || (8192 <=? c) && (c <=? 8202)
   || (c =? 8232) || (c =? 8233) || (c =? 8239) || (c =? 8287)
   || (c =? 12288))%N.

(** ** Exceptions *)

Inductive exn := IndexError | KeyError | AssertionError | ValueError.

Inductive result (A : Type) :=
| Ok (a : A)
| Raise (e : exn).
Arguments Ok {A} a.
Arguments Raise {A} e.

Definition bind {A B} (r : result A) (k : A -> result B) : result B :=
  match r with
  | Ok a => k a
  | Raise e => Raise e
  end.

Notation "x <- r ;; k" := (bind r (fun x => k))
  (at level 61, r at next level, right associativity).

(** [l[i]] for a non-negative index. *)
Definition index {A} (l : list A) (i : nat) : result A :=
  match nth_error l i with
  | Some a => Ok a
  | None => Raise IndexError
  end.

(** [[f(x) for x in l if cond(x)]]: the elements are visited in order, the
    condition is evaluated first, and the first exception ends the loop. *)
Fixpoint comprehension {A B} (f : A -> result B) (cond : A -> result bool)
  (l : list A) : result (list B) :=
  match l with
  | [] => Ok []
  | x :: l' =>
      keep <- cond x ;;
      if keep : bool
      then y <- f x ;; ys <- comprehension f cond l' ;; Ok (y :: ys)
      else comprehension f cond l'
  end.

(** A [dict] with string keys, as the association list of its literal. *)
Definition dict (V : Type) := list (str * V).

Fixpoint dict_find {V} (d : dict V) (k : str) : option V :=
  match d with
  | [] => None
  | (k', v) :: d' => if str_eq_dec k k' then Some v else dict_find d' k
  end.

(** [k in d] *)
Definition dict_mem {V} (k : str) (d : dict V) : bool :=
  match dict_find d k with Some _ => true | None => false end.

(** [d[k]] *)
Definition dict_get {V} (d : dict V) (k : str) : result V :=
  match dict_find d k with Some v => Ok v | None => Raise KeyError end.

(** [f.readlines()] on a text-mode file whose (newline-translated) content
    is [s]: the lines, each with its terminating newline, the last one
    possibly without. *)
Fixpoint readlines (s : str) : list str :=
  match s with
  | [] => []
  | c :: t =>
      if (c =? newline)%N then [c] :: readlines t
      else match readlines t with
           | [] => [[c]]
           | l :: ls => (c :: l) :: ls
           end
  end.

(** [s.split(sep)] for a one-character separator: never empty. *)
Fixpoint split (sep : char) (s : str) : list str :=
  match s with
  | [] => [[]]
  | c :: t =>
      if (c =? sep)%N then [] :: split sep t
      else match split sep t with
           | [] => [[c]]
           | f :: fs => (c :: f) :: fs
           end
  end.

(** [sep.join(fields)] for a one-character separator. *)
Fixpoint join (sep : char) (fields : list str) : str :=
  match fields with
  | [] => []
  | f :: rest =>
      match rest with
      | [] => f
      | _ => f ++ sep :: join sep rest
      end
  end.

(** [s.lstrip()], [s.rstrip()] and [s.strip()] without argument. *)
Fixpoint lstrip (s : str) : str :=
  match s with
  | [] => []
  | c :: t => if isspace c then lstrip t else s
  end.

Definition rstrip (s : str) : str := rev (lstrip (rev s)).

Definition strip (s : str) : str := rstrip (lstrip s).

(** The two regular expressions of the source. *)
Inductive pattern :=
| PChar (c : char)      (* an escaped literal character, as in '\\(' *)
| PSpaces (n : nat).    (* '\\s{n,}': n or more whitespace characters, greedy *)

(** Number of leading whitespace characters. *)
Fixpoint space_run (s : str) : nat :=
  match s with
  | [] => 0
  | c :: t => if isspace c then S (space_run t) else 0
  end.

(** Length of the match of the pattern at the start of [s], if any. *)
Definition match_len (p : pattern) (s : str) : option nat :=
  match p with
  | PChar c =>
      match s with
      | x :: _ => if (x =? c)%N then Some 1 else None
      | [] => None
      end
  | PSpaces n => if n <=? space_run s then Some (space_run s) else None
  end.

(** [re.sub(p, repl, s)] for patterns without empty matches: scanning from
    the left, every match is replaced by [repl] and the scan resumes after
    it; a character at which nothing matches is copied. *)
Equations? re_sub (p : pattern) (repl s : str) : str by wf (length s) lt :=
  re_sub p repl [] := [];
  re_sub p repl (c :: t) with match_len p (c :: t) => {
    | Some (S k) := repl ++ re_sub p repl (skipn k t);
    | _ := c :: re_sub p repl t }.
Proof.
  all: simpl; try rewrite length_skipn; lia.
Qed.

End Py.

(** ** [read_snli] *)

Module SNLI.
Import Py.

(** The inner function [extract_text] of [read_snli]. *)
Definition extract_text (s : str) : str :=
  let s := re_sub (PChar lparen) [] s in
  let s := re_sub (PChar rparen) [] s in
  let s := re_sub (PSpaces 2) (lit " ") s in
  strip s.

Definition label_set : dict Z :=
  [(lit "entailment", 0%Z); (lit "contradiction", 1%Z); (lit "neutral", 2%Z)].

(** [row[0] in label_set], the filter of the three comprehensions. *)
Definition labelled (row : list str) : result bool :=
  l <- index row 0 ;; Ok (dict_mem l label_set).

(** The body of [read_snli] after the file has been read: [lines] is what
    [f.readlines()] returned. *)
Definition read_snli_lines (lines : list str)
  : result (list str * list str * list Z) :=
  let rows := map (split tab) (skipn 1 lines) in
  premises <-
    comprehension (fun row => s <- index row 1 ;; Ok (extract_text s))
      labelled rows ;;
  hypotheses <-
    comprehension (fun row => s <- index row 2 ;; Ok (extract_text s))
      labelled rows ;;
  labels <-
    comprehension (fun row => l <- index row 0 ;; dict_get label_set l)
      labelled rows ;;
  Ok (premises, hypotheses, labels).

(** [read_snli(data_dir, is_train)], as a function of the content of the
    file that [is_train] selects. *)
Definition read_snli (text : str) : result (list str * list str * list Z) :=
  read_snli_lines (readlines text).

(** The label statistics the notebook prints for a data set:
    [[[row for row in data[2]].count(i) for i in range(3)]]. *)
Definition label_counts (labels : list Z) : list nat :=
  map (fun i => count_occ Z.eq_dec labels (Z.of_nat i)) (seq 0 3).

End SNLI.

(** ** The helpers of the [d2l] package

    [d2l.truncate_pad], [d2l.Vocab] and [d2l.tokenize] are saved into the
    package by other notebooks of the book. *)

Module D2L.
Import Py.

Definition token := str.

(** Modelled from the spec: [d2l.truncate_pad], which is not in this
    notebook.  "Sequences longer than num_steps are truncated from the
    tail end; shorter ones are right-padded with the vocabulary's padding
    id." *)
Definition truncate_pad (line : list Z) (num_steps : nat) (padding_token : Z)
  : list Z :=
  if num_steps <? length line then firstn num_steps line
  else line ++ repeat padding_token (num_steps - length line).

(** Modelled from the spec: the class [d2l.Vocab], which is not in this
    notebook.  "Mapping from token to integer id", "token-to-id mapping
    with frequency cutoff and reserved tokens"; "out-of-vocabulary tokens
    [are] mapped to a designated unknown-token id rather than failing".
    The table lists the tokens that have an id of their own, the token at
    position [i] having id [i + 1]; id [0] is the unknown-token id.  The
    spec does not fix the order in which the ids are handed out. *)
Record Vocab := mkVocab { idx_to_token : list token }.

Definition unk : Z := 0.

Fixpoint find_idx (t : token) (l : list token) (i : Z) : option Z :=
  match l with
  | [] => None
  | t' :: l' => if str_eq_dec t t' then Some i else find_idx t l' (i + 1)%Z
  end.

(** [vocab[t]] for a single token. *)
Definition token_to_idx (v : Vocab) (t : token) : Z :=
  match find_idx t (idx_to_token v) 1 with
  | Some i => i
  | None => unk
  end.

(** [vocab[line]] for a list of tokens. *)
Definition getitem (v : Vocab) (line : list token) : list Z :=
  map (token_to_idx v) line.

(** [d2l.Vocab(tokens, min_freq, reserved_tokens)], where [tokens] is a
    list of token lists: the reserved tokens, then every token of the
    corpus that occurs at least [min_freq] times. *)
Definition Vocab_new (tokens : list (list token)) (min_freq : nat)
  (reserved_tokens : list token) : Vocab :=
  let corpus := concat tokens in
  mkVocab
    (reserved_tokens ++
     filter
       (fun t => (min_freq <=? count_occ str_eq_dec corpus t)
                 && negb (if in_dec str_eq_dec t reserved_tokens
                          then true else false))
       (nodup str_eq_dec corpus)).

(** A tokenizer for the examples: word-level tokenization as Python's
    [line.split()], the maximal runs of non-whitespace characters.  [cur]
    is the current word, reversed. *)
Fixpoint split_ws_from (cur : str) (s : str) : list token :=
  match s with
  | [] => match cur with [] => [] | _ => [rev cur] end
  | c :: t =>
      if isspace c
      then match cur with
           | [] => split_ws_from [] t
           | _ => rev cur :: split_ws_from [] t
           end
      else split_ws_from (c :: cur) t
  end.

Definition split_ws (s : str) : list token := split_ws_from [] s.

End D2L.

(** ** [SNLIDataset] *)

Module Dataset.
Import Py D2L.

(** A two-dimensional integer tensor, as the list of its rows. *)
Definition matrix := list (list Z).

Record SNLIDataset := mkSNLIDataset {
  num_steps : nat;
  vocab : Vocab;
  premises : matrix;
  hypotheses : matrix;
  labels : list Z
}.

(** [SNLIDataset._pad], as a function of the two fields of [self] that it
    reads. *)
Definition _pad (num_steps : nat) (vocab : Vocab) (lines : list (list token))
  : matrix :=
  map (fun line =>
         truncate_pad (getitem vocab line) num_steps
           (token_to_idx vocab (lit "<pad>")))
      lines.

Section Tokenizer.

(** [d2l.tokenize] is not in this notebook and the spec only says that the
    text is tokenized: what it does to one line is a parameter. *)
Variable tokenize_line : str -> list token.

Definition tokenize (lines : list str) : list (list token) :=
  map tokenize_line lines.

(** [SNLIDataset.__init__(self, dataset, num_steps, vocab=None)] *)
Definition SNLIDataset_init (dataset : list str * list str * list Z)
  (num_steps : nat) (vocab : option Vocab) : SNLIDataset :=
  let '(d0, d1, d2) := dataset in
  let all_premise_tokens := tokenize d0 in
  let all_hypothesis_tokens := tokenize d1 in
  let self_vocab :=
    match vocab with
    | None => Vocab_new (all_premise_tokens ++ all_hypothesis_tokens) 5
                        [lit "<pad>"]
    | Some v => v
    end in
  mkSNLIDataset num_steps self_vocab
    (_pad num_steps self_vocab all_premise_tokens)
    (_pad num_steps self_vocab all_hypothesis_tokens)
    d2.

End Tokenizer.

(** What indexing the dataset returns: the two padded rows and the label
    as a tensor of shape [1] (the recorded run of the notebook prints
    [128, 1] for a batch of labels). *)
Definition sample := ((list Z * list Z) * list Z)%type.

(** [SNLIDataset.__getitem__(self, idx)] for a non-negative index. *)
Definition SNLIDataset_getitem (self : SNLIDataset) (idx : nat)
  : result sample :=
  p <- index (premises self) idx ;;
  h <- index (hypotheses self) idx ;;
  l <- index (labels self) idx ;;
  Ok ((p, h), [l]).

(** [SNLIDataset.__len__(self)] *)
Definition SNLIDataset_len (self : SNLIDataset) : nat :=
  length (premises self).

End Dataset.

(** ** [paddle.io.DataLoader] and [load_data_snli]

    The loader is the framework's class.  What is modelled of it is its
    behaviour on a map-style dataset for the arguments the notebook
    passes: a sampler that yields the indices in sequence or, under
    [shuffle], in a random order; a batch sampler that groups them; and
    the default collate function that stacks the samples of a batch. *)

Module Loader.
Import Py SNLI D2L Dataset.

(** The arguments [load_data_snli] passes to [paddle.io.DataLoader]; it
    leaves [drop_last] at its default, [False]. *)
Record DataLoader := mkDataLoader {
  dataset : SNLIDataset;
  batch_size : nat;
  shuffle : bool;
  drop_last : bool
}.

(** The constructor asserts [batch_size > 0] and then builds the batch
    sampler of the dataset: under [shuffle] over a [RandomSampler], which
    raises [ValueError] for a dataset without examples, otherwise over a
    [SequenceSampler]. *)
Definition DataLoader_new (dataset : SNLIDataset) (batch_size : nat)
  (shuffle : bool) : result DataLoader :=
  if batch_size =? 0 then Raise AssertionError
  else if shuffle && (SNLIDataset_len dataset =? 0) then Raise ValueError
  else Ok (mkDataLoader dataset batch_size shuffle false).

(** The loop of [BatchSampler.__iter__]: indices are appended to the
    current batch, which is yielded when it holds [batch_size] of them;
    what is left at the end is yielded unless [drop_last]. *)
Fixpoint batch_sampler (batch_size : nat) (drop_last : bool)
  (batch_indices : list nat) (sampler : list nat) : list (list nat) :=
  match sampler with
  | [] =>
      if negb drop_last && (0 <? length batch_indices)
      then [batch_indices] else []
  | idx :: rest =>
      let batch_indices := batch_indices ++ [idx] in
      if length batch_indices =? batch_size
      then batch_indices :: batch_sampler batch_size drop_last [] rest
      else batch_sampler batch_size drop_last batch_indices rest
  end.

Fixpoint map_result {A B} (f : A -> result B) (l : list A) : result (list B) :=
  match l with
  | [] => Ok []
  | x :: l' => y <- f x ;; ys <- map_result f l' ;; Ok (y :: ys)
  end.

(** A batch [(X, Y)]: [X[0]] and [X[1]] are the stacked premise and
    hypothesis rows, [Y] the stacked labels. *)
Definition batch := ((matrix * matrix) * matrix)%type.

(** The default collate function on samples [((p, h), l)]: each field is
    stacked along a new first axis. *)
Definition collate (samples : list sample) : batch :=
  ((map (fun s => fst (fst s)) samples, map (fun s => snd (fst s)) samples),
   map snd samples).

Definition fetch (ds : SNLIDataset) (indices : list nat) : result batch :=
  samples <- map_result (SNLIDataset_getitem ds) indices ;;
  Ok (collate samples).

(** The orders in which the sampler of a loader may visit the dataset:
    [0 .. len-1] in sequence, or any permutation of it under [shuffle]. *)
Definition sampler_order (dl : DataLoader) (order : list nat) : Prop :=
  let n := SNLIDataset_len (dataset dl) in
  if shuffle dl then Permutation (seq 0 n) order else order = seq 0 n.

(** The batches of one pass [for X, Y in dl], given the sampler's order. *)
Definition iterate (dl : DataLoader) (order : list nat) : list (result batch) :=
  map (fetch (dataset dl))
      (batch_sampler (batch_size dl) (drop_last dl) [] order).

(** [tensor.shape == [r, c]] for a two-dimensional tensor. *)
Definition has_shape (m : matrix) (r c : nat) : Prop :=
  length m = r /\ Forall (fun row => length row = c) m.

Section Tokenizer.

Variable tokenize_line : str -> list token.

(** [load_data_snli(batch_size, num_steps=50)], as a function of the
    contents of the two files of the downloaded corpus. *)
Definition load_data_snli (train_text test_text : str)
  (batch_size num_steps : nat) : result (DataLoader * DataLoader * Vocab) :=
  train_data <- read_snli train_text ;;
  test_data <- read_snli test_text ;;
  let train_set := SNLIDataset_init tokenize_line train_data num_steps None in
  let test_set := SNLIDataset_init tokenize_line test_data num_steps
                    (Some (vocab train_set)) in
  train_iter <- DataLoader_new train_set batch_size true ;;
  test_iter <- DataLoader_new test_set batch_size false ;;
  Ok (train_iter, test_iter, vocab train_set).

End Tokenizer.

End Loader.

(** * Predicates of the statements *)

Import Py SNLI D2L Dataset Loader.

(** The rows [read_snli] builds from the text of a file: one per line
    after the first. *)
Definition rows_of (text : str) : list (list str) :=
  map (split tab) (skipn 1 (readlines text)).

(** The row passes the filter [row[0] in label_set]. *)
Definition recognized (row : list str) : bool :=
  dict_mem (nth 0 row []) label_set.

(** The integer [label_set[row[0]]] of a recognized row. *)
Definition label_of (row : list str) : Z :=
  match dict_find label_set (nth 0 row []) with
  | Some l => l
  | None => 0%Z
  end.

(** The string starts with a whitespace character. *)
Definition starts_with_space (s : str) : bool :=
  match s with
  | c :: _ => isspace c
  | [] => false
  end.

(** No two adjacent characters are both whitespace. *)
Fixpoint space_run_free (s : str) : bool :=
  match s with
  | [] => true
  | c :: t => negb (isspace c && starts_with_space t) && space_run_free t
  end.

(** A cleaned string: no parenthesis, no two adjacent whitespace
    characters. *)
Definition clean (s : str) : Prop :=
  ~ In lparen s /\ ~ In rparen s /\
  forall a c1 c2 b, s = a ++ c1 :: c2 :: b ->
                    ~ (isspace c1 = true /\ isspace c2 = true).

(** A trimmed string: neither its first nor its last character is
    whitespace. *)
Definition trimmed (s : str) : Prop :=
  (forall c t, s = c :: t -> isspace c = false) /\
  (forall c t, s = t ++ [c] -> isspace c = false).

(** A dataset whose three tensors have the same number of rows, the rows
    of the two matrices being [num_steps] long. *)
Definition well_formed (ds : SNLIDataset) : Prop :=
  length (hypotheses ds) = length (premises ds) /\
  length (labels ds) = length (premises ds) /\
  Forall (fun row => length row = num_steps ds) (premises ds) /\
  Forall (fun row => length row = num_steps ds) (hypotheses ds).

(** The shapes of a batch of [k] examples. *)
Definition batch_shapes (b : batch) (k n : nat) : Prop :=
  has_shape (fst (fst b)) k n /\ has_shape (snd (fst b)) k n /\
  has_shape (snd b) k 1.


(** A row with a recognized label and fewer than three fields. *)
Definition short_row (row : list str) : Prop :=
  recognized row = true /\ length row < 3.

(** * Properties *)

(** ** The result monad and comprehensions *)

Section Comprehension.

Context {A B : Type}.
Variables (f : A -> result B) (cond : A -> result bool).

(** An element the condition rejects leaves no trace. *)
Lemma comprehension_skip (l1 l2 : list A) (x : A) :
  cond x = Ok false ->
  comprehension f cond (l1 ++ x :: l2) = comprehension f cond (l1 ++ l2).
Proof.
  intros Hx. induction l1 as [|a l1 IH]; simpl.
  - rewrite Hx. reflexivity.
  - rewrite IH. reflexivity.
Qed.

(** When neither the condition nor the body raises on the elements kept,
    the comprehension is a [filter] followed by a [map]. *)
Lemma comprehension_ok (c : A -> bool) (g : A -> B) (l : list A) :
  (forall x, In x l -> cond x = Ok (c x)) ->
  (forall x, In x l -> c x = true -> f x = Ok (g x)) ->
  comprehension f cond l = Ok (map g (filter c l)).
Proof.
  induction l as [|a l IH]; intros Hc Hf; simpl; [reflexivity|].
  rewrite (Hc a (or_introl eq_refl)). simpl.
  rewrite IH; [| intros; apply Hc; simpl; auto | intros; apply Hf; simpl; auto].
  destruct (c a) eqn:Ea; simpl; [|reflexivity].
  rewrite (Hf a (or_introl eq_refl) Ea). reflexivity.
Qed.

(** A kept element on which the body raises makes the comprehension
    raise, provided nothing else raises another exception. *)
Lemma comprehension_raise (e : exn) (l : list A) :
  (forall x, In x l -> exists b, cond x = Ok b) ->
  (forall x, In x l -> f x = Raise e \/ exists y, f x = Ok y) ->
  (exists x, In x l /\ cond x = Ok true /\ f x = Raise e) ->
  comprehension f cond l = Raise e.
Proof.
  induction l as [|a l IH]; intros Hc Hf (x & Hin & Hcx & Hfx).
  - destruct Hin.
  - simpl. destruct (Hc a (or_introl eq_refl)) as [b Hb]. rewrite Hb. simpl.
    destruct Hin as [<-|Hin].
    + assert (b = true) by congruence. subst b. rewrite Hfx. reflexivity.
    + assert (IH' : comprehension f cond l = Raise e).
      { apply IH; [intros; apply Hc | intros; apply Hf | exists x]; simpl; auto. }
      rewrite IH'. destruct b; [|reflexivity].
      destruct (Hf a (or_introl eq_refl)) as [Ha|[y Ha]]; rewrite Ha; reflexivity.
Qed.

(** Every element of a successful comprehension is a value of the body. *)
Lemma comprehension_Forall (P : B -> Prop) (l : list A) (ys : list B) :
  (forall x y, f x = Ok y -> P y) ->
  comprehension f cond l = Ok ys -> Forall P ys.
Proof.
  intros HP. revert ys. induction l as [|a l IH]; simpl; intros ys H.
  - injection H as <-. constructor.
  - destruct (cond a) as [[|]|]; simpl in H; try discriminate; auto.
    destruct (f a) as [y|] eqn:Ea; simpl in H; try discriminate.
    destruct (comprehension f cond l) as [ys'|]; simpl in H; try discriminate.
    injection H as <-. constructor; eauto.
Qed.

End Comprehension.

(** ** Lines and fields *)

Lemma readlines_line (line rest : str) :
  ~ In newline line ->
  readlines (line ++ newline :: rest) = (line ++ [newline]) :: readlines rest.
Proof.
  induction line as [|c line IH]; intros Hn; simpl.
  - reflexivity.
  - destruct (N.eqb_spec c newline) as [->|_]; [exfalso; apply Hn; left; reflexivity|].
    rewrite IH by (intros H; apply Hn; right; exact H). reflexivity.
Qed.

Lemma readlines_last (line : str) :
  ~ In newline line -> line <> [] -> readlines line = [line].
Proof.
  induction line as [|c line IH]; intros Hn Hne; [congruence|]. simpl.
  destruct (N.eqb_spec c newline) as [->|_]; [exfalso; apply Hn; left; reflexivity|].
  destruct line as [|d line]; [reflexivity|].
  rewrite IH; [reflexivity | intros H; apply Hn; right; exact H | discriminate].
Qed.

(** A text that ends in a newline splits into lines independently of
    what follows it. *)
Lemma readlines_app (pre rest : str) :
  readlines ((pre ++ [newline]) ++ rest) = readlines (pre ++ [newline]) ++ readlines rest.
Proof.
  induction pre as [|c pre IH]; simpl; [reflexivity|].
  destruct (c =? newline)%N; simpl.
  - f_equal. exact IH.
  - rewrite IH. destruct (readlines (pre ++ [newline])) eqn:E; [|reflexivity].
    exfalso. clear -E. induction pre as [|d pre IH]; simpl in E; [discriminate|].
    destruct (d =? newline)%N; [discriminate|].
    destruct (readlines (pre ++ [newline])); [auto | discriminate].
Qed.

Lemma readlines_nonempty (s : str) : s <> [] -> readlines s <> [].
Proof.
  destruct s as [|c s]; [congruence|]. intros _. simpl.
  destruct (c =? newline)%N; [discriminate|].
  destruct (readlines s); discriminate.
Qed.

Lemma split_nonempty (sep : char) (s : str) : split sep s <> [].
Proof.
  destruct s as [|c s]; simpl; [discriminate|].
  destruct (c =? sep)%N; [discriminate|].
  destruct (split sep s); discriminate.
Qed.

Lemma index_nth {A} (l : list A) (i : nat) (d : A) :
  i < length l -> index l i = Ok (nth i l d).
Proof.
  intros H. unfold index. rewrite (nth_error_nth' l d H). reflexivity.
Qed.

Lemma index_out {A} (l : list A) (i : nat) :
  length l <= i -> index l i = Raise IndexError.
Proof.
  intros H. unfold index.
  apply nth_error_None in H. rewrite H. reflexivity.
Qed.

(** ** Regular-expression substitution and stripping *)

Lemma re_sub_cons (p : pattern) (repl : str) (c : char) (t : str) :
  re_sub p repl (c :: t) =
  match match_len p (c :: t) with
  | Some (S k) => repl ++ re_sub p repl (skipn k t)
  | _ => c :: re_sub p repl t
  end.
Proof.
  simp re_sub.
  destruct (match_len p (c :: t)) as [[|k]|]; reflexivity.
Qed.

(** Substituting the empty string for a literal character deletes every
    occurrence of it. *)
Lemma re_sub_char_delete (c : char) (s : str) :
  re_sub (PChar c) [] s = filter (fun x => negb (x =? c)%N) s.
Proof.
  induction s as [|x s IH]; [reflexivity|].
  rewrite re_sub_cons. simpl.
  destruct (x =? c)%N; simpl; rewrite IH; reflexivity.
Qed.

Lemma skipn_space_run (s : str) : skipn (space_run s) s = lstrip s.
Proof.
  induction s as [|c s IH]; [reflexivity|]. simpl.
  destruct (isspace c); [exact IH | reflexivity].
Qed.

Lemma space_run_0 (s : str) : starts_with_space s = false -> space_run s = 0.
Proof. destruct s as [|c s]; simpl; [reflexivity|]. intros ->. reflexivity. Qed.

Lemma space_run_pos (s : str) : starts_with_space s = true -> 1 <= space_run s.
Proof. destruct s as [|c s]; simpl; [discriminate|]. intros ->. lia. Qed.

Lemma lstrip_no_leading_space (s : str) : starts_with_space (lstrip s) = false.
Proof.
  induction s as [|c s IH]; [reflexivity|]. simpl.
  destruct (isspace c) eqn:E; [exact IH | simpl; exact E].
Qed.

Lemma lstrip_length (s : str) : length (lstrip s) <= length s.
Proof.
  induction s as [|c s IH]; simpl; [lia|].
  destruct (isspace c); simpl; lia.
Qed.

(** The three cases of [re.sub('\\s{2,}', repl, s)] at a character. *)
Lemma re_sub_spaces_cons (repl : str) (c : char) (t : str) :
  re_sub (PSpaces 2) repl (c :: t) =
  if isspace c && starts_with_space t
  then repl ++ re_sub (PSpaces 2) repl (lstrip t)
  else c :: re_sub (PSpaces 2) repl t.
Proof.
  rewrite re_sub_cons. unfold match_len. simpl space_run.
  destruct (isspace c) eqn:Ec; cbn [andb]; [|reflexivity].
  destruct (starts_with_space t) eqn:Et.
  - pose proof (space_run_pos t Et) as Hp.
    replace (2 <=? S (space_run t)) with true
      by (symmetry; apply Nat.leb_le; lia).
    cbv beta iota. rewrite skipn_space_run. reflexivity.
  - rewrite (space_run_0 t Et). reflexivity.
Qed.

Lemma re_sub_spaces_head (s : str) :
  starts_with_space s = false ->
  starts_with_space (re_sub (PSpaces 2) (lit " ") s) = false.
Proof.
  destruct s as [|c t]; [reflexivity|]. simpl. intros Hc.
  rewrite re_sub_spaces_cons, Hc. simpl. exact Hc.
Qed.

Lemma re_sub_spaces_run_free_upto (n : nat) :
  forall s, length s <= n ->
            space_run_free (re_sub (PSpaces 2) (lit " ") s) = true.
Proof.
  induction n as [|n IH]; intros [|c t] Hlen; simpl in Hlen; try reflexivity; try lia.
  rewrite re_sub_spaces_cons.
  destruct (isspace c && starts_with_space t) eqn:E.
  - change (lit " " ++ ?x) with (space :: x). simpl.
    rewrite re_sub_spaces_head by apply lstrip_no_leading_space.
    simpl. apply IH. pose proof (lstrip_length t). lia.
  - simpl. rewrite IH by lia. rewrite andb_true_r.
    destruct (isspace c) eqn:Ec; [|reflexivity]. simpl in *.
    rewrite re_sub_spaces_head by exact E. reflexivity.
Qed.

(** After the third substitution no two whitespace characters are
    adjacent. *)
Lemma re_sub_spaces_run_free (s : str) :
  space_run_free (re_sub (PSpaces 2) (lit " ") s) = true.
Proof. apply (re_sub_spaces_run_free_upto (length s)). lia. Qed.

Lemma re_sub_spaces_In_upto (n : nat) :
  forall s x, length s <= n ->
              In x (re_sub (PSpaces 2) (lit " ") s) -> x = space \/ In x s.
Proof.
  induction n as [|n IH]; intros [|c t] x Hlen; simpl in Hlen; try lia;
    try (simp re_sub; simpl; tauto).
  rewrite re_sub_spaces_cons.
  destruct (isspace c && starts_with_space t).
  - change (lit " " ++ ?y) with (space :: y). simpl. intros [<-|H]; [auto|].
    apply IH in H; [|pose proof (lstrip_length t); lia].
    destruct H as [H|H]; [auto|]. right. right.
    clear -H. induction t as [|d t IHt]; simpl in *; [tauto|].
    destruct (isspace d); simpl in *; tauto.
  - simpl. intros [<-|H]; [auto|]. apply IH in H; [tauto | lia].
Qed.

(** The third substitution introduces no character but the space. *)
Lemma re_sub_spaces_In (s : str) (x : char) :
  In x (re_sub (PSpaces 2) (lit " ") s) -> x = space \/ In x s.
Proof. apply (re_sub_spaces_In_upto (length s)). lia. Qed.

Lemma lstrip_suffix (s : str) : exists w, s = w ++ lstrip s.
Proof.
  induction s as [|c s [w IH]]; [exists []; reflexivity|]. simpl.
  destruct (isspace c); [exists (c :: w); simpl; congruence | exists []; reflexivity].
Qed.

Lemma rstrip_prefix (s : str) : exists w, s = rstrip s ++ w.
Proof.
  unfold rstrip. destruct (lstrip_suffix (rev s)) as [w Hw].
  exists (rev w). rewrite <- rev_app_distr, <- Hw, rev_involutive. reflexivity.
Qed.

(** [strip] returns a slice of its argument. *)
Lemma strip_slice (s : str) : exists a b, s = a ++ strip s ++ b.
Proof.
  unfold strip. destruct (lstrip_suffix s) as [a Ha].
  destruct (rstrip_prefix (lstrip s)) as [b Hb].
  exists a, b. rewrite <- Hb. exact Ha.
Qed.

Lemma space_run_free_app (a b : str) :
  space_run_free (a ++ b) = true ->
  space_run_free a = true /\ space_run_free b = true.
Proof.
  induction a as [|c a IH]; simpl; [auto|]. intros H.
  apply andb_true_iff in H. destruct H as [H1 H2].
  destruct (IH H2) as [Ha Hb]. split; [|exact Hb].
  rewrite Ha, andb_true_r.
  destruct (isspace c); [|reflexivity]. simpl in *.
  destruct a as [|d a]; [reflexivity | exact H1].
Qed.

(** The boolean check says what its name promises. *)
Lemma space_run_free_spec (s : str) :
  space_run_free s = true ->
  forall a c1 c2 b, s = a ++ c1 :: c2 :: b ->
                    ~ (isspace c1 = true /\ isspace c2 = true).
Proof.
  intros H a c1 c2 b ->. apply space_run_free_app in H. destruct H as [_ H].
  simpl in H. intros [H1 H2]. rewrite H1, H2 in H. discriminate.
Qed.

Lemma strip_no_leading_space (s : str) : starts_with_space (strip s) = false.
Proof.
  unfold strip. pose proof (lstrip_no_leading_space s) as H.
  destruct (rstrip_prefix (lstrip s)) as [w Hw].
  destruct (rstrip (lstrip s)) as [|c r]; [reflexivity|].
  rewrite Hw in H. exact H.
Qed.

Lemma strip_no_trailing_space (s : str) :
  starts_with_space (rev (strip s)) = false.
Proof.
  unfold strip, rstrip. rewrite rev_involutive. apply lstrip_no_leading_space.
Qed.

(** ** [extract_text] *)

Lemma extract_text_clean (s : str) : clean (extract_text s).
Proof.
  unfold extract_text. rewrite !re_sub_char_delete.
  match goal with |- context [re_sub (PSpaces 2) _ ?v] => set (u := v) end.
  assert (Hu : forall x, In x u -> x <> lparen /\ x <> rparen).
  { intros x Hx. unfold u in Hx. apply filter_In in Hx. destruct Hx as [Hx H2].
    apply filter_In in Hx. destruct Hx as [_ H1].
    apply negb_true_iff in H1, H2. apply N.eqb_neq in H1, H2. auto. }
  destruct (strip_slice (re_sub (PSpaces 2) (lit " ") u)) as (a & b & Hs).
  assert (Hin : forall x, In x (strip (re_sub (PSpaces 2) (lit " ") u)) ->
                          x = space \/ In x u).
  { intros x Hx. apply re_sub_spaces_In. rewrite Hs.
    apply in_or_app. right. apply in_or_app. left. exact Hx. }
  split; [|split].
  - intros H. apply Hin in H. destruct H as [H|H]; [discriminate|].
    apply Hu in H. destruct H as [H _]. congruence.
  - intros H. apply Hin in H. destruct H as [H|H]; [discriminate|].
    apply Hu in H. destruct H as [_ H]. congruence.
  - apply space_run_free_spec.
    pose proof (re_sub_spaces_run_free u) as H. rewrite Hs in H.
    apply space_run_free_app in H. destruct H as [_ H].
    apply space_run_free_app in H. tauto.
Qed.

Lemma extract_text_trimmed (s : str) : trimmed (extract_text s).
Proof.
  unfold extract_text.
  match goal with |- context [strip ?v] => set (u := v) end.
  split; intros c t E.
  - pose proof (strip_no_leading_space u) as H. rewrite E in H. exact H.
  - pose proof (strip_no_trailing_space u) as H. rewrite E, rev_app_distr in H.
    exact H.
Qed.

(** ** [read_snli] *)

Lemma label_set_spec (s : str) (l : Z) :
  dict_find label_set s = Some l <->
  (s = lit "entailment" /\ l = 0%Z) \/
  (s = lit "contradiction" /\ l = 1%Z) \/
  (s = lit "neutral" /\ l = 2%Z).
Proof.
  unfold label_set, dict_find.
  destruct (str_eq_dec s (lit "entailment")) as [->|H0].
  { split; [intros [= <-]; auto|].
    intros [[_ ->]|[[H _]|[H _]]]; [reflexivity | discriminate H ..]. }
  destruct (str_eq_dec s (lit "contradiction")) as [->|H1].
  { split; [intros [= <-]; auto|].
    intros [[H _]|[[_ ->]|[H _]]]; [discriminate H | reflexivity | discriminate H]. }
  destruct (str_eq_dec s (lit "neutral")) as [->|H2].
  { split; [intros [= <-]; auto|].
    intros [[H _]|[[H _]|[_ ->]]]; [discriminate H .. | reflexivity]. }
  split; [discriminate|]. intros [[H _]|[[H _]|[H _]]]; contradiction.
Qed.

Lemma labelled_row (row : list str) :
  row <> [] -> labelled row = Ok (recognized row).
Proof. destruct row as [|l row]; [congruence|]. reflexivity. Qed.

Lemma rows_of_nonempty (text : str) (row : list str) :
  In row (rows_of text) -> row <> [].
Proof.
  unfold rows_of. intros H. apply in_map_iff in H.
  destruct H as (line & <- & _). apply split_nonempty.
Qed.

Lemma labelled_rows_of (text : str) (row : list str) :
  In row (rows_of text) -> labelled row = Ok (recognized row).
Proof. intros H. apply labelled_row. exact (rows_of_nonempty text row H). Qed.

(** The field comprehensions raise nothing but [IndexError]. *)
Lemma field_ok_or_IndexError (i : nat) (row : list str) :
  (s <- index row i ;; Ok (extract_text s)) = Raise IndexError \/
  exists y, (s <- index row i ;; Ok (extract_text s)) = Ok y.
Proof.
  unfold index. destruct (nth_error row i); simpl; eauto.
Qed.

Lemma comprehension_exn {A B} (f : A -> result B) (cond : A -> result bool)
  (e e' : exn) (l : list A) :
  (forall x, In x l -> exists b, cond x = Ok b) ->
  (forall x, In x l -> f x = Raise e \/ exists y, f x = Ok y) ->
  comprehension f cond l = Raise e' -> e' = e.
Proof.
  induction l as [|a l IH]; simpl; intros Hc Hf H; [discriminate|].
  destruct (Hc a (or_introl eq_refl)) as [b Hb]. rewrite Hb in H. simpl in H.
  assert (IH' : comprehension f cond l = Raise e' -> e' = e)
    by (apply IH; intros; [apply Hc | apply Hf]; auto).
  destruct b; [|auto].
  destruct (Hf a (or_introl eq_refl)) as [Ha|[y Ha]]; rewrite Ha in H; simpl in H.
  - congruence.
  - destruct (comprehension f cond l); simpl in H; [discriminate|].
    apply IH'. congruence.
Qed.

(** Rows that differ by one unrecognized row give the same result,
    be it a value or an exception. *)
Lemma read_snli_lines_skip (header : str) (l1 l2 : list str) (line : str) :
  recognized (split tab line) = false ->
  read_snli_lines (header :: l1 ++ line :: l2) =
  read_snli_lines (header :: l1 ++ l2).
Proof.
  intros H. unfold read_snli_lines. simpl skipn.
  rewrite !map_app. simpl map.
  assert (Hc : labelled (split tab line) = Ok false)
    by (rewrite labelled_row by apply split_nonempty; congruence).
  rewrite !(comprehension_skip _ labelled _ _ _ Hc). reflexivity.
Qed.

Lemma readlines_header (pre : str) :
  exists header lines, readlines (pre ++ [newline]) = header :: lines.
Proof.
  destruct (readlines (pre ++ [newline])) as [|h ls] eqn:E; [|eauto].
  exfalso. revert E. apply readlines_nonempty. destruct pre; discriminate.
Qed.

(** The premises and hypotheses [read_snli] returns are values of
    [extract_text]. *)
Lemma read_snli_extracted (P : str -> Prop) (text : str)
  (ps hs : list str) (ls : list Z) :
  (forall s, P (extract_text s)) ->
  read_snli text = Ok (ps, hs, ls) -> Forall P ps /\ Forall P hs.
Proof.
  intros HP. unfold read_snli, read_snli_lines.
  set (rows := map (split tab) _).
  destruct (comprehension (fun row => s <- index row 1;; _) labelled rows)
    as [ps'|] eqn:E1; simpl; [|discriminate].
  destruct (comprehension (fun row => s <- index row 2;; _) labelled rows)
    as [hs'|] eqn:E2; simpl; [|discriminate].
  destruct (comprehension (fun row => l <- index row 0;; _) labelled rows)
    as [ls'|] eqn:E3; simpl; [|discriminate].
  intros H. inversion H; subst.
  assert (Hf : forall i (row : list str) y,
             (s <- index row i ;; Ok (extract_text s)) = Ok y -> P y).
  { intros i row y. unfold index. destruct (nth_error row i); simpl; [|discriminate].
    intros [= <-]. apply HP. }
  split; [exact (comprehension_Forall _ _ P _ _ (Hf 1) E1)
         | exact (comprehension_Forall _ _ P _ _ (Hf 2) E2)].
Qed.

Lemma forallb_not_In (c : char) (s : str) :
  forallb (fun x => negb (x =? c)%N) s = true -> ~ In c s.
Proof.
  intros H Hin. rewrite forallb_forall in H. specialize (H c Hin).
  rewrite N.eqb_refl in H. discriminate.
Qed.

Lemma not_In_field (c sep : char) (field rest : str) :
  forallb (fun x => negb (x =? c)%N) (field ++ [sep]) = true ->
  ~ In c rest -> ~ In c (field ++ sep :: rest).
Proof.
  intros Hf Hr H. apply forallb_not_In in Hf. apply Hf.
  rewrite in_app_iff in *. simpl in *. tauto.
Qed.

Lemma recognized_spec (row : list str) :
  recognized row = true <->
  nth 0 row [] = lit "entailment" \/ nth 0 row [] = lit "contradiction" \/
  nth 0 row [] = lit "neutral".
Proof.
  unfold recognized, dict_mem.
  destruct (dict_find label_set (nth 0 row [])) as [l|] eqn:E.
  - apply label_set_spec in E. intuition.
  - split; [discriminate|]. intros H. exfalso.
    assert (exists l, dict_find label_set (nth 0 row []) = Some l) as [l Hl].
    { destruct H as [H|[H|H]]; rewrite H; eexists; reflexivity. }
    congruence.
Qed.

Lemma label_of_spec (row : list str) :
  recognized row = true ->
  dict_find label_set (nth 0 row []) = Some (label_of row).
Proof.
  unfold recognized, dict_mem, label_of.
  destruct (dict_find label_set (nth 0 row [])); [reflexivity | discriminate].
Qed.

(** C1 (counterexample): a row with a recognized label and only two
    fields is not dropped; reading the file raises [IndexError], while
    the same file without that row reads as the empty corpus. *)
Lemma read_snli_short_row_raises :
  length (split tab (lit "entailment\tA man sleeps .")) = 2 /\
  read_snli (lit "gold_label\tsentence1\tsentence2\nentailment\tA man sleeps .")
  = Raise IndexError /\
  read_snli (lit "gold_label\tsentence1\tsentence2\n") = Ok ([], [], []).
Proof. repeat split; vm_compute; reflexivity. Qed.

(** C1 (amended): a row whose first field is not one of the three labels
    is silently dropped, whatever else it holds: the file reads as it
    does without that row, for a row in the middle of the file and for a
    last row without a newline.  A row with a recognized label and fewer
    than three fields is not dropped: [read_snli] raises [IndexError]. *)
Theorem read_snli_drops_unrecognized_rows :
  (forall pre line post : str,
      ~ In newline line ->
      recognized (split tab (line ++ [newline])) = false ->
      read_snli ((pre ++ [newline]) ++ (line ++ [newline]) ++ post)
      = read_snli ((pre ++ [newline]) ++ post)) /\
  (forall pre line : str,
      ~ In newline line -> line <> [] ->
      recognized (split tab line) = false ->
      read_snli ((pre ++ [newline]) ++ line) = read_snli (pre ++ [newline])) /\
  (forall (text : str) (row : list str),
      In row (rows_of text) -> recognized row = true -> length row < 3 ->
      read_snli text = Raise IndexError).
Proof.
  split; [|split].
  - intros pre line post Hnl Hrow. unfold read_snli.
    rewrite !readlines_app, (readlines_line line [] Hnl).
    destruct (readlines_header pre) as (header & lines & ->). simpl.
    apply read_snli_lines_skip. exact Hrow.
  - intros pre line Hnl Hne Hrow. unfold read_snli.
    rewrite readlines_app, (readlines_last line Hnl Hne).
    destruct (readlines_header pre) as (header & lines & ->). simpl app.
    rewrite (read_snli_lines_skip header lines [] line Hrow), app_nil_r.
    reflexivity.
  - intros text row Hin Hrec Hlen. unfold read_snli, read_snli_lines.
    fold (rows_of text).
    assert (Hc : forall x, In x (rows_of text) -> exists b, labelled x = Ok b)
      by (intros x Hx; rewrite (labelled_rows_of text x Hx); eauto).
    destruct (comprehension (fun row => s <- index row 1;; _) labelled
                (rows_of text)) as [ps|e] eqn:E1; simpl.
    + rewrite (comprehension_raise
                 (fun row => s <- index row 2;; Ok (extract_text s)) labelled
                 IndexError (rows_of text)); [reflexivity | exact Hc | |].
      * intros x _. apply field_ok_or_IndexError.
      * exists row. split; [exact Hin|]. split.
        -- rewrite (labelled_rows_of text row Hin), Hrec. reflexivity.
        -- rewrite index_out by lia. reflexivity.
    + f_equal. eapply comprehension_exn; [exact Hc | | exact E1].
      intros x _. apply field_ok_or_IndexError.
Qed.

Lemma read_snli_drops_unrecognized_rows_witness :
  read_snli (lit "gold_label\ts1\ts2\n-\tA cat .\tA dog .\nneutral\tC\tD\n")
  = read_snli (lit "gold_label\ts1\ts2\nneutral\tC\tD\n") /\
  read_snli (lit "gold_label\ts1\ts2\nneutral\tC\tD\nunknown")
  = read_snli (lit "gold_label\ts1\ts2\nneutral\tC\tD\n") /\
  read_snli (lit "gold_label\ts1\ts2\nneutral\tC\n") = Raise IndexError.
Proof.
  destruct read_snli_drops_unrecognized_rows as (Hmid & Hlast & Hshort).
  split; [|split].
  - replace (lit "gold_label\ts1\ts2\n-\tA cat .\tA dog .\nneutral\tC\tD\n")
      with ((lit "gold_label\ts1\ts2" ++ [newline]) ++
            (lit "-\tA cat .\tA dog ." ++ [newline]) ++ lit "neutral\tC\tD\n")
      by (vm_compute; reflexivity).
    replace (lit "gold_label\ts1\ts2\nneutral\tC\tD\n")
      with ((lit "gold_label\ts1\ts2" ++ [newline]) ++ lit "neutral\tC\tD\n")
      by (vm_compute; reflexivity).
    apply Hmid.
    + apply forallb_not_In. vm_compute. reflexivity.
    + vm_compute. reflexivity.
  - replace (lit "gold_label\ts1\ts2\nneutral\tC\tD\nunknown")
      with ((lit "gold_label\ts1\ts2\nneutral\tC\tD" ++ [newline]) ++
            lit "unknown")
      by (vm_compute; reflexivity).
    replace (lit "gold_label\ts1\ts2\nneutral\tC\tD\n")
      with (lit "gold_label\ts1\ts2\nneutral\tC\tD" ++ [newline])
      by (vm_compute; reflexivity).
    apply Hlast.
    + apply forallb_not_In. vm_compute. reflexivity.
    + intros H. apply (f_equal (@length _)) in H. vm_compute in H.
      discriminate H.
    + vm_compute. reflexivity.
  - apply (Hshort _ [lit "neutral"; lit "C\n"]).
    + vm_compute. auto.
    + vm_compute. reflexivity.
    + vm_compute. lia.
Defined.

(** C2 (counterexample): on a file with a labelled row of two fields
    [read_snli] returns no sequences at all, it raises [IndexError]. *)
Lemma read_snli_two_fields_no_result :
  read_snli (lit "gold_label\tsentence1\tsentence2\ncontradiction\tTwo dogs run .\n")
  = Raise IndexError.
Proof. vm_compute. reflexivity. Qed.

(** C2 (amended): for every file in which each row with a recognized
    label has at least three tab-separated fields, [read_snli] skips the
    first line, keeps exactly the rows whose first field is entailment,
    contradiction or neutral, and returns the cleaned second fields, the
    cleaned third fields and the labels encoded 0, 1, 2: three sequences
    of the same length, one entry per kept row. *)
Theorem read_snli_parallel (text : str) :
  let kept := filter recognized (rows_of text) in
  Forall (fun row => 3 <= length row) kept ->
  read_snli text =
    Ok (map (fun row => extract_text (nth 1 row [])) kept,
        map (fun row => extract_text (nth 2 row [])) kept,
        map label_of kept) /\
  Forall (fun row =>
            (nth 0 row [] = lit "entailment" /\ label_of row = 0%Z) \/
            (nth 0 row [] = lit "contradiction" /\ label_of row = 1%Z) \/
            (nth 0 row [] = lit "neutral" /\ label_of row = 2%Z)) kept /\
  (forall row, In row (rows_of text) ->
     (In row kept <->
      nth 0 row [] = lit "entailment" \/ nth 0 row [] = lit "contradiction" \/
      nth 0 row [] = lit "neutral")) /\
  length (map (fun row => extract_text (nth 1 row [])) kept) = length kept /\
  length (map (fun row => extract_text (nth 2 row [])) kept) = length kept /\
  length (map label_of kept) = length kept.
Proof.
  intros kept Hlen.
  assert (Hkept : forall row, In row (rows_of text) -> recognized row = true ->
                              3 <= length row).
  { intros row Hin Hrec. rewrite Forall_forall in Hlen. apply Hlen.
    apply filter_In. auto. }
  split; [|split; [|split]].
  - unfold read_snli, read_snli_lines. fold (rows_of text).
    rewrite (comprehension_ok _ labelled recognized
               (fun row => extract_text (nth 1 row [])));
      [| apply labelled_rows_of
       | intros row Hin Hrec;
         rewrite (index_nth row 1 []) by (specialize (Hkept row Hin Hrec); lia);
         reflexivity ].
    rewrite (comprehension_ok _ labelled recognized
               (fun row => extract_text (nth 2 row [])));
      [| apply labelled_rows_of
       | intros row Hin Hrec;
         rewrite (index_nth row 2 []) by (specialize (Hkept row Hin Hrec); lia);
         reflexivity ].
    rewrite (comprehension_ok _ labelled recognized label_of);
      [reflexivity | apply labelled_rows_of |].
    intros row Hin Hrec.
    rewrite (index_nth row 0 []) by (specialize (Hkept row Hin Hrec); lia).
    simpl. unfold dict_get. rewrite (label_of_spec row Hrec). reflexivity.
  - apply Forall_forall. intros row Hin. apply filter_In in Hin.
    destruct Hin as [_ Hrec]. apply label_of_spec in Hrec.
    apply label_set_spec in Hrec. exact Hrec.
  - intros row Hin. unfold kept. rewrite filter_In, <- recognized_spec. tauto.
  - rewrite !length_map. auto.
Qed.

Lemma read_snli_parallel_witness :
  read_snli (lit "gold_label\ts1\ts2\nneutral\tA ( cat )\tAn animal\textra\n-\tx\ty\nentailment\tB\tC\n")
  = Ok ([lit "A cat"; lit "B"], [lit "An animal"; lit "C"], [2%Z; 0%Z]).
Proof.
  refine (proj1 (read_snli_parallel
    (lit "gold_label\ts1\ts2\nneutral\tA ( cat )\tAn animal\textra\n-\tx\ty\nentailment\tB\tC\n") _)).
  vm_compute. repeat constructor.
Defined.

Lemma split_field (sep : char) (field rest : str) :
  ~ In sep field -> split sep (field ++ sep :: rest) = field :: split sep rest.
Proof.
  induction field as [|c field IH]; intros Hn; simpl.
  - rewrite N.eqb_refl. reflexivity.
  - destruct (N.eqb_spec c sep) as [->|_]; [exfalso; apply Hn; left; reflexivity|].
    rewrite IH by (intros H; apply Hn; right; exact H). reflexivity.
Qed.

(** C8: every premise and hypothesis that [read_snli] returns is free of
    parentheses and of runs of two or more whitespace characters; and
    the example line of the specification, after any header line and
    with any further fields [rest], is parsed to the premise, hypothesis
    and label 0 that the specification gives. *)
Theorem read_snli_clean :
  (forall (text : str) (ps hs : list str) (ls : list Z),
      read_snli text = Ok (ps, hs, ls) -> Forall clean ps /\ Forall clean hs) /\
  (forall header rest : str,
      ~ In newline header -> ~ In newline rest ->
      read_snli
        (header ++ newline ::
         lit "entailment" ++ tab ::
         lit "A person on a horse jumps ( over ) a broken down airplane ." ++ tab ::
         lit "A person is outdoors , on a horse ." ++ tab :: rest)
      = Ok ([lit "A person on a horse jumps over a broken down airplane ."],
            [lit "A person is outdoors , on a horse ."],
            [0%Z])).
Proof.
  split.
  - intros text ps hs ls. apply read_snli_extracted. apply extract_text_clean.
  - intros header rest Hh Hr. unfold read_snli.
    rewrite (readlines_line header _ Hh).
    rewrite readlines_last.
    + unfold read_snli_lines. cbn [skipn map].
      rewrite !split_field by (apply forallb_not_In; vm_compute; reflexivity).
      vm_compute. reflexivity.
    + repeat (apply not_In_field; [vm_compute; reflexivity|]). exact Hr.
    + intros H. apply (f_equal (@length _)) in H. rewrite length_app in H.
      vm_compute in H. discriminate H.
Qed.

Lemma read_snli_clean_witness :
  Forall clean [lit "A dog runs"] /\ Forall clean [lit "An animal moves ."] /\
  read_snli
    (lit "gold_label\tsentence1_parse\tsentence2_parse\nentailment\tA person on a horse jumps ( over ) a broken down airplane .\tA person is outdoors , on a horse .\t...")
  = Ok ([lit "A person on a horse jumps over a broken down airplane ."],
        [lit "A person is outdoors , on a horse ."],
        [0%Z]).
Proof.
  destruct read_snli_clean as [Hall Hex].
  split; [|split].
  - apply (Hall (lit "h\nneutral\t( ( A dog )   ( runs ) )\t( An animal ( moves . ) )\n")
             _ [lit "An animal moves ."] [2%Z]).
    vm_compute. reflexivity.
  - apply (Hall (lit "h\nneutral\t( ( A dog )   ( runs ) )\t( An animal ( moves . ) )\n")
             [lit "A dog runs"] _ [2%Z]).
    vm_compute. reflexivity.
  - replace (lit "gold_label\tsentence1_parse\tsentence2_parse\nentailment\tA person on a horse jumps ( over ) a broken down airplane .\tA person is outdoors , on a horse .\t...")
      with (lit "gold_label\tsentence1_parse\tsentence2_parse" ++ newline ::
            lit "entailment" ++ tab ::
            lit "A person on a horse jumps ( over ) a broken down airplane ." ++ tab ::
            lit "A person is outdoors , on a horse ." ++ tab :: lit "...")
      by (vm_compute; reflexivity).
    apply Hex.
    + apply forallb_not_In. vm_compute. reflexivity.
    + apply forallb_not_In. vm_compute. reflexivity.
Defined.

(** C10: every premise and hypothesis that [read_snli] returns starts
    and ends with a character that is not whitespace (or is empty). *)
Theorem read_snli_trimmed (text : str) (ps hs : list str) (ls : list Z) :
  read_snli text = Ok (ps, hs, ls) -> Forall trimmed ps /\ Forall trimmed hs.
Proof. apply read_snli_extracted. apply extract_text_trimmed. Qed.

Lemma read_snli_trimmed_witness :
  Forall trimmed [lit "A dog"] /\ Forall trimmed [lit "An animal ."].
Proof.
  apply (read_snli_trimmed
           (lit "h\ncontradiction\t  ( A dog ) \t ( An animal . )\n")
           [lit "A dog"] [lit "An animal ."] [1%Z]).
  vm_compute. reflexivity.
Defined.

(** ** Padding *)

Lemma truncate_pad_length (line : list Z) (n : nat) (p : Z) :
  length (truncate_pad line n p) = n.
Proof.
  unfold truncate_pad. destruct (Nat.ltb_spec n (length line)).
  - rewrite length_firstn. lia.
  - rewrite length_app, repeat_length. lia.
Qed.

Lemma truncate_pad_long (line : list Z) (n : nat) (p : Z) :
  n < length line -> truncate_pad line n p = firstn n line.
Proof.
  intros H. unfold truncate_pad. apply Nat.ltb_lt in H. rewrite H. reflexivity.
Qed.

Lemma truncate_pad_short (line : list Z) (n : nat) (p : Z) :
  length line <= n -> truncate_pad line n p = line ++ repeat p (n - length line).
Proof.
  intros H. unfold truncate_pad.
  destruct (Nat.ltb_spec n (length line)); [lia | reflexivity].
Qed.

Lemma getitem_length (v : Vocab) (line : list token) :
  length (getitem v line) = length line.
Proof. apply length_map. Qed.

(** C3: [_pad] turns every token sequence into a row of exactly
    [num_steps] ids: the first [num_steps] ids of a longer sequence, and
    the ids of a shorter one followed by the id of the padding token. *)
Theorem pad_exact_length (num_steps : nat) (v : Vocab)
  (lines : list (list token)) :
  Forall2
    (fun line row =>
       length row = num_steps /\
       (num_steps < length line -> row = firstn num_steps (getitem v line)) /\
       (length line <= num_steps ->
        row = getitem v line ++
              repeat (token_to_idx v (lit "<pad>")) (num_steps - length line)))
    lines (_pad num_steps v lines).
Proof.
  induction lines as [|line lines IH]; simpl; constructor; [|exact IH].
  split; [apply truncate_pad_length|]. split; intros H.
  - apply truncate_pad_long. rewrite getitem_length. exact H.
  - rewrite <- (getitem_length v line). apply truncate_pad_short.
    rewrite getitem_length. exact H.
Qed.

Lemma pad_exact_length_witness :
  Forall2 (fun (line : list token) (row : list Z) => length row = 2)
    [[lit "a"; lit "b"; lit "a"]; [lit "a"]; []]
    (_pad 2 (mkVocab [lit "<pad>"; lit "a"])
       [[lit "a"; lit "b"; lit "a"]; [lit "a"]; []]).
Proof.
  eapply Forall2_impl; [|apply pad_exact_length].
  intros line row H. apply H.
Defined.

(** C4: a sequence of at most [num_steps] ids is padded to itself
    followed by padding ids only; cutting the padded row at the original
    length gives the sequence back, and what is cut off is padding. *)
Theorem truncate_pad_roundtrip (ids : list Z) (num_steps : nat) (pad : Z) :
  length ids <= num_steps ->
  truncate_pad ids num_steps pad = ids ++ repeat pad (num_steps - length ids) /\
  firstn (length ids) (truncate_pad ids num_steps pad) = ids /\
  skipn (length ids) (truncate_pad ids num_steps pad)
  = repeat pad (num_steps - length ids) /\
  truncate_pad (truncate_pad ids num_steps pad) num_steps pad
  = truncate_pad ids num_steps pad.
Proof.
  intros H. rewrite (truncate_pad_short ids num_steps pad H).
  split; [reflexivity|]. split; [|split].
  - rewrite firstn_app, Nat.sub_diag, firstn_all. simpl. apply app_nil_r.
  - rewrite skipn_app, Nat.sub_diag, skipn_all. reflexivity.
  - assert (L : length (ids ++ repeat pad (num_steps - length ids)) = num_steps)
      by (rewrite length_app, repeat_length; lia).
    rewrite truncate_pad_short by lia. rewrite L, Nat.sub_diag. apply app_nil_r.
Qed.

Lemma truncate_pad_roundtrip_witness :
  truncate_pad [7; 8; 9]%Z 5 1%Z = [7; 8; 9; 1; 1]%Z /\
  firstn 3 (truncate_pad [7; 8; 9]%Z 5 1%Z) = [7; 8; 9]%Z.
Proof.
  destruct (truncate_pad_roundtrip [7; 8; 9]%Z 5 1%Z) as (H1 & H2 & _).
  - simpl. lia.
  - split; [exact H1 | exact H2].
Defined.

(** ** The vocabulary *)

Lemma find_idx_Some (t : token) (l : list token) (i j : Z) :
  find_idx t l i = Some j -> (i <= j)%Z /\ In t l.
Proof.
  revert i. induction l as [|t' l IH]; simpl; intros i H; [discriminate|].
  destruct (str_eq_dec t t') as [->|_].
  - injection H as <-. split; [lia | auto].
  - apply IH in H. split; [lia | tauto].
Qed.

Lemma find_idx_In (t : token) (l : list token) (i : Z) :
  In t l -> exists j, find_idx t l i = Some j.
Proof.
  revert i. induction l as [|t' l IH]; simpl; intros i H; [tauto|].
  destruct (str_eq_dec t t') as [->|Hne]; [eauto|].
  apply IH. destruct H; congruence.
Qed.

(** A token has an id of its own exactly when it is in the table. *)
Lemma token_to_idx_known (v : Vocab) (t : token) :
  token_to_idx v t <> unk <-> In t (idx_to_token v).
Proof.
  unfold token_to_idx, unk.
  destruct (find_idx t (idx_to_token v) 1) as [j|] eqn:E.
  - apply find_idx_Some in E. split; [tauto | lia].
  - split; [congruence|]. intros H.
    destruct (find_idx_In t (idx_to_token v) 1 H). congruence.
Qed.

Lemma Vocab_new_In (tokens : list (list token)) (min_freq : nat)
  (reserved_tokens : list token) (t : token) :
  0 < min_freq ->
  In t (idx_to_token (Vocab_new tokens min_freq reserved_tokens)) <->
  In t reserved_tokens \/ min_freq <= count_occ str_eq_dec (concat tokens) t.
Proof.
  intros Hpos. unfold Vocab_new. simpl. rewrite in_app_iff, filter_In, nodup_In.
  rewrite andb_true_iff, Nat.leb_le, negb_true_iff.
  destruct (in_dec str_eq_dec t reserved_tokens) as [Hr|Hr].
  - tauto.
  - split; [tauto|]. intros [H|H]; [tauto|]. right.
    split; [|auto]. apply (count_occ_In str_eq_dec). lia.
Qed.

Lemma Vocab_new_NoDup (tokens : list (list token)) (min_freq : nat)
  (reserved_tokens : list token) :
  NoDup reserved_tokens ->
  NoDup (idx_to_token (Vocab_new tokens min_freq reserved_tokens)).
Proof.
  intros Hr. unfold Vocab_new. simpl. apply NoDup_app.
  - exact Hr.
  - apply NoDup_filter, NoDup_nodup.
  - intros t H1 H2. apply filter_In in H2. destruct H2 as [_ H2].
    apply andb_true_iff in H2. destruct H2 as [_ H2].
    destruct (in_dec str_eq_dec t reserved_tokens); [discriminate | contradiction].
Qed.

(** ** [SNLIDataset] *)

Section DatasetProperties.

Variable tokenize_line : str -> list token.

(** C5: without a vocabulary argument, [SNLIDataset] builds its
    vocabulary from the tokens of all premises and all hypotheses: the
    tokens with an id of their own are exactly those occurring at least
    5 times in that union, and the reserved padding token, whose id
    differs from the unknown-token id. *)
Theorem SNLIDataset_builds_vocab (premises hypotheses : list str)
  (labels : list Z) (num_steps : nat) :
  let ds := SNLIDataset_init tokenize_line (premises, hypotheses, labels)
              num_steps None in
  let union := concat (tokenize tokenize_line premises ++
                       tokenize tokenize_line hypotheses) in
  vocab ds = Vocab_new (tokenize tokenize_line premises ++
                        tokenize tokenize_line hypotheses) 5 [lit "<pad>"] /\
  (forall t : token,
      token_to_idx (vocab ds) t <> unk <->
      t = lit "<pad>" \/ 5 <= count_occ str_eq_dec union t) /\
  (forall t : token,
      In t (idx_to_token (vocab ds)) <->
      t = lit "<pad>" \/ 5 <= count_occ str_eq_dec union t) /\
  NoDup (idx_to_token (vocab ds)) /\
  token_to_idx (vocab ds) (lit "<pad>") <> unk.
Proof.
  intros ds union.
  assert (Hv : vocab ds = Vocab_new (tokenize tokenize_line premises ++
                                     tokenize tokenize_line hypotheses) 5
                                    [lit "<pad>"]) by reflexivity.
  assert (Hin : forall t, In t (idx_to_token (vocab ds)) <->
                          t = lit "<pad>" \/ 5 <= count_occ str_eq_dec union t).
  { intros t. rewrite Hv, Vocab_new_In by lia. simpl. unfold union.
    intuition congruence. }
  split; [exact Hv|]. split; [|split; [exact Hin|split]].
  - intros t. rewrite token_to_idx_known. apply Hin.
  - rewrite Hv. apply Vocab_new_NoDup. repeat constructor. simpl. tauto.
  - apply token_to_idx_known, Hin. left. reflexivity.
Qed.

(** What [load_data_snli] has done when it returns. *)
Lemma load_data_snli_inv (train_text test_text : str)
  (batch_size num_steps : nat) (train_iter test_iter : DataLoader)
  (v : Vocab) :
  load_data_snli tokenize_line train_text test_text batch_size num_steps
  = Ok (train_iter, test_iter, v) ->
  exists p0 h0 l0 p1 h1 l1,
    read_snli train_text = Ok (p0, h0, l0) /\
    read_snli test_text = Ok (p1, h1, l1) /\
    0 < batch_size /\
    train_iter
    = mkDataLoader (SNLIDataset_init tokenize_line (p0, h0, l0) num_steps None)
        batch_size true false /\
    test_iter
    = mkDataLoader
        (SNLIDataset_init tokenize_line (p1, h1, l1) num_steps
           (Some (vocab (SNLIDataset_init tokenize_line (p0, h0, l0)
                           num_steps None))))
        batch_size false false /\
    v = vocab (SNLIDataset_init tokenize_line (p0, h0, l0) num_steps None).
Proof.
  unfold load_data_snli, DataLoader_new. intros H.
  destruct (read_snli train_text) as [[[p0 h0] l0]|]; cbn [bind] in H;
    [|discriminate].
  destruct (read_snli test_text) as [[[p1 h1] l1]|]; cbn [bind] in H;
    [|discriminate].
  destruct (Nat.eqb_spec batch_size 0) as [|Hbs]; cbn [bind andb] in H;
    [discriminate|].
  destruct (SNLIDataset_len _ =? 0); cbn [bind] in H; [discriminate|].
  inversion H; subst. exists p0, h0, l0, p1, h1, l1.
  repeat (split; [reflexivity|]). split; [lia|]. auto.
Qed.

(** C6: a dataset given a vocabulary stores that very vocabulary and
    encodes and pads every premise and hypothesis with it, whatever the
    data; and when [load_data_snli] returns, the vocabulary it returns
    was built from the training data alone, is the vocabulary of both
    datasets, and is the one the rows of the test dataset (as of the
    training dataset) are encoded and padded with. *)
Theorem vocab_built_once_and_shared :
  (forall (d0 d1 : list str) (d2 : list Z) (num_steps : nat) (v : Vocab),
      let ds := SNLIDataset_init tokenize_line (d0, d1, d2) num_steps (Some v) in
      let encode := fun line : str =>
        truncate_pad (map (token_to_idx v) (tokenize_line line)) num_steps
          (token_to_idx v (lit "<pad>")) in
      vocab ds = v /\
      premises ds = map encode d0 /\ hypotheses ds = map encode d1) /\
  (forall (train_text test_text : str) (batch_size num_steps : nat)
          (train_iter test_iter : DataLoader) (v : Vocab),
      load_data_snli tokenize_line train_text test_text batch_size num_steps
      = Ok (train_iter, test_iter, v) ->
      let encode := fun line : str =>
        truncate_pad (map (token_to_idx v) (tokenize_line line)) num_steps
          (token_to_idx v (lit "<pad>")) in
      exists p0 h0 l0 p1 h1 l1,
        read_snli train_text = Ok (p0, h0, l0) /\
        read_snli test_text = Ok (p1, h1, l1) /\
        v = Vocab_new (map tokenize_line p0 ++ map tokenize_line h0) 5
              [lit "<pad>"] /\
        vocab (dataset train_iter) = v /\
        vocab (dataset test_iter) = v /\
        premises (dataset train_iter) = map encode p0 /\
        hypotheses (dataset train_iter) = map encode h0 /\
        premises (dataset test_iter) = map encode p1 /\
        hypotheses (dataset test_iter) = map encode h1).
Proof.
  split.
  - intros d0 d1 d2 n v ds encode. unfold ds, encode. simpl.
    unfold _pad, tokenize, getitem. rewrite !map_map. auto.
  - intros train_text test_text bs n train_iter test_iter v Hload encode.
    destruct (load_data_snli_inv _ _ _ _ _ _ _ Hload)
      as (p0 & h0 & l0 & p1 & h1 & l1 & Htr & Hte & _ & -> & -> & Hv).
    exists p0, h0, l0, p1, h1, l1.
    split; [exact Htr|]. split; [exact Hte|].
    unfold encode. rewrite Hv. simpl.
    unfold _pad, tokenize, getitem. rewrite !map_map. repeat split.
Qed.

(** C7: for a dataset built from three sequences of the same length,
    [len] is that length; indexing at a position below it returns the
    padded premise ids and padded hypothesis ids of that position with
    its label; and the dataset of empty sequences has length zero. *)
Theorem SNLIDataset_indexing (ps hs : list str) (ls : list Z)
  (num_steps : nat) (v : option Vocab) :
  length hs = length ps -> length ls = length ps ->
  let ds := SNLIDataset_init tokenize_line (ps, hs, ls) num_steps v in
  let pad_line := fun line : str =>
    truncate_pad (getitem (vocab ds) (tokenize_line line)) num_steps
      (token_to_idx (vocab ds) (lit "<pad>")) in
  SNLIDataset_len ds = length ps /\
  (forall idx, idx < SNLIDataset_len ds ->
     exists p h l,
       nth_error ps idx = Some p /\ nth_error hs idx = Some h /\
       nth_error ls idx = Some l /\
       SNLIDataset_getitem ds idx = Ok ((pad_line p, pad_line h), [l])) /\
  SNLIDataset_len (SNLIDataset_init tokenize_line ([], [], []) num_steps v) = 0.
Proof.
  intros Hh Hl ds pad_line.
  assert (Hlen : SNLIDataset_len ds = length ps).
  { unfold SNLIDataset_len, ds. simpl. unfold _pad, tokenize.
    rewrite !length_map. reflexivity. }
  split; [exact Hlen|]. split; [|reflexivity].
  intros idx Hidx. rewrite Hlen in Hidx.
  destruct (nth_error ps idx) as [p|] eqn:Ep;
    [|apply nth_error_None in Ep; lia].
  destruct (nth_error hs idx) as [h|] eqn:Eh;
    [|apply nth_error_None in Eh; lia].
  destruct (nth_error ls idx) as [l|] eqn:El;
    [|apply nth_error_None in El; lia].
  exists p, h, l. repeat split.
  unfold SNLIDataset_getitem, index.
  assert (Hp : premises ds = map pad_line ps)
    by (unfold ds, pad_line; simpl; unfold _pad, tokenize;
        rewrite map_map; reflexivity).
  assert (Hy : hypotheses ds = map pad_line hs)
    by (unfold ds, pad_line; simpl; unfold _pad, tokenize;
        rewrite map_map; reflexivity).
  change (labels ds) with ls.
  rewrite Hp, Hy, !nth_error_map, Ep, Eh, El. reflexivity.
Qed.

End DatasetProperties.

Lemma SNLIDataset_builds_vocab_witness :
  token_to_idx
    (vocab (SNLIDataset_init split_ws
              ([lit "a a b"; lit "a"], [lit "a b"; lit "a c"], [0%Z; 1%Z])
              3 None))
    (lit "a") <> unk.
Proof.
  apply (proj1 (proj2 (SNLIDataset_builds_vocab split_ws
                         [lit "a a b"; lit "a"] [lit "a b"; lit "a c"]
                         [0%Z; 1%Z] 3))).
  right. vm_compute. lia.
Defined.

Lemma vocab_built_once_and_shared_witness :
  match load_data_snli split_ws
          (lit "h\nneutral\ta a a a a b\tb\nentailment\tc\ta\n")
          (lit "h\ncontradiction\tb a c\ta\n") 2 2
  with
  | Ok (train_iter, test_iter, v) =>
      idx_to_token v = [lit "<pad>"; lit "a"] /\
      vocab (dataset train_iter) = v /\ vocab (dataset test_iter) = v /\
      premises (dataset test_iter) = [[0; 2]%Z] /\
      hypotheses (dataset test_iter) = [[2; 1]%Z]
  | Raise _ => False
  end.
Proof.
  destruct (load_data_snli split_ws
              (lit "h\nneutral\ta a a a a b\tb\nentailment\tc\ta\n")
              (lit "h\ncontradiction\tb a c\ta\n") 2 2)
    as [[[train_iter test_iter] v]|e] eqn:E.
  - destruct (proj2 (vocab_built_once_and_shared split_ws) _ _ _ _ _ _ _ E)
      as (p0 & h0 & l0 & p1 & h1 & l1 & Htr & Hte & Hv & V1 & V2 & _ & _
          & P & H).
    vm_compute in Htr. vm_compute in Hte.
    inversion Htr; subst p0 h0 l0. inversion Hte; subst p1 h1 l1.
    rewrite V1, V2, P, H. subst v.
    repeat split; vm_compute; reflexivity.
  - vm_compute in E. discriminate E.
Defined.

Lemma SNLIDataset_indexing_witness :
  SNLIDataset_len
    (SNLIDataset_init split_ws
       ([lit "a b"; lit "a"], [lit "b"; lit "a a a"], [0%Z; 2%Z]) 2 None) = 2 /\
  exists p h l,
    SNLIDataset_getitem
      (SNLIDataset_init split_ws
         ([lit "a b"; lit "a"], [lit "b"; lit "a a a"], [0%Z; 2%Z]) 2 None) 1
    = Ok ((p, h), [l]) /\ l = 2%Z /\ length p = 2 /\ length h = 2.
Proof.
  destruct (SNLIDataset_indexing split_ws
              [lit "a b"; lit "a"] [lit "b"; lit "a a a"] [0%Z; 2%Z] 2 None
              eq_refl eq_refl) as (Hlen & Hget & _).
  split; [exact Hlen|].
  destruct (Hget 1) as (p & h & l & Hp & Hh & Hl & Hg).
  - rewrite Hlen. simpl. lia.
  - eexists _, _, l. split; [exact Hg|].
    split; [injection Hl as <-; reflexivity|].
    split; apply truncate_pad_length.
Defined.

(** ** Batches *)

Section BatchSampler.

Variable batch_size : nat.
Hypothesis batch_size_pos : 0 < batch_size.

(** The batches partition the sampler's order. *)
Lemma batch_sampler_concat (acc order : list nat) :
  concat (batch_sampler batch_size false acc order) = acc ++ order.
Proof.
  revert acc. induction order as [|i order IH]; intros acc; simpl.
  - destruct acc; simpl; rewrite ?app_nil_r; reflexivity.
  - destruct (length (acc ++ [i]) =? batch_size); simpl; rewrite IH, <- app_assoc;
      reflexivity.
Qed.

Lemma batch_sampler_sizes (acc order : list nat) :
  length acc < batch_size ->
  Forall (fun b => 1 <= length b <= batch_size)
         (batch_sampler batch_size false acc order).
Proof.
  revert acc. induction order as [|i order IH]; intros acc Hacc; simpl.
  - destruct acc; simpl in *.
    + apply Forall_nil.
    + apply Forall_cons; [simpl; lia | apply Forall_nil].
  - assert (Hl : length (acc ++ [i]) = S (length acc))
      by (rewrite length_app; simpl; lia).
    destruct (Nat.eqb_spec (length (acc ++ [i])) batch_size) as [E|E].
    + constructor; [lia|]. apply IH. simpl. lia.
    + apply IH. lia.
Qed.

(** Every batch but the last is full. *)
Lemma batch_sampler_full (acc order : list nat) :
  length acc < batch_size ->
  Forall (fun b => length b = batch_size)
         (removelast (batch_sampler batch_size false acc order)).
Proof.
  revert acc. induction order as [|i order IH]; intros acc Hacc; simpl.
  - destruct acc; simpl; constructor.
  - assert (Hl : length (acc ++ [i]) = S (length acc))
      by (rewrite length_app; simpl; lia).
    destruct (Nat.eqb_spec (length (acc ++ [i])) batch_size) as [E|E].
    + specialize (IH [] batch_size_pos).
      destruct (batch_sampler batch_size false [] order) eqn:Eb;
        [constructor|].
      change (removelast ((acc ++ [i]) :: l :: l0))
        with ((acc ++ [i]) :: removelast (l :: l0)).
      constructor; assumption.
    + apply IH. lia.
Qed.

(** With enough indices, the first batch is full. *)
Lemma batch_sampler_first (acc order : list nat) :
  length acc < batch_size -> batch_size <= length acc + length order ->
  exists b rest, batch_sampler batch_size false acc order = b :: rest /\
                 length b = batch_size.
Proof.
  revert acc. induction order as [|i order IH]; intros acc Hacc Hn; simpl in *.
  - lia.
  - assert (Hl : length (acc ++ [i]) = S (length acc))
      by (rewrite length_app; simpl; lia).
    destruct (Nat.eqb_spec (length (acc ++ [i])) batch_size) as [E|E].
    + eauto.
    + apply IH; lia.
Qed.

End BatchSampler.

Lemma map_result_ok {A B} (f : A -> result B) (P : B -> Prop) (l : list A) :
  Forall (fun x => exists y, f x = Ok y /\ P y) l ->
  exists ys, map_result f l = Ok ys /\ length ys = length l /\ Forall P ys.
Proof.
  induction 1 as [|x l (y & Hy & HP) _ (ys & Hys & Hlen & HF)]; simpl.
  - exists []. auto.
  - rewrite Hy, Hys. simpl. exists (y :: ys). simpl. auto.
Qed.

Lemma pad_rows (n : nat) (v : Vocab) (lines : list (list token)) :
  Forall (fun row => length row = n) (_pad n v lines).
Proof.
  unfold _pad. apply Forall_map, Forall_forall. intros line _.
  apply truncate_pad_length.
Qed.

Lemma SNLIDataset_init_well_formed (tokenize_line : str -> list token)
  (ps hs : list str) (ls : list Z) (n : nat) (v : option Vocab) :
  length hs = length ps -> length ls = length ps ->
  well_formed (SNLIDataset_init tokenize_line (ps, hs, ls) n v) /\
  num_steps (SNLIDataset_init tokenize_line (ps, hs, ls) n v) = n.
Proof.
  intros Hh Hl. unfold well_formed. simpl. unfold _pad at 1 2 3, tokenize.
  rewrite !length_map. repeat split; auto; apply pad_rows.
Qed.

Lemma fetch_ok (ds : SNLIDataset) (indices : list nat) :
  well_formed ds ->
  Forall (fun i => i < SNLIDataset_len ds) indices ->
  exists b, fetch ds indices = Ok b /\
            batch_shapes b (length indices) (num_steps ds).
Proof.
  intros (Hh & Hl & Hp & Hhy) Hidx. unfold fetch.
  destruct (map_result_ok (SNLIDataset_getitem ds)
              (fun s : sample =>
                 length (fst (fst s)) = num_steps ds /\
                 length (snd (fst s)) = num_steps ds /\ length (snd s) = 1)
              indices) as (samples & -> & Hlen & HF).
  { apply Forall_forall. intros i Hi. rewrite Forall_forall in Hidx.
    specialize (Hidx i Hi). unfold SNLIDataset_len in Hidx.
    unfold SNLIDataset_getitem, index.
    destruct (nth_error (premises ds) i) as [p|] eqn:Ep;
      [|apply nth_error_None in Ep; lia].
    destruct (nth_error (hypotheses ds) i) as [h|] eqn:Eh;
      [|apply nth_error_None in Eh; lia].
    destruct (nth_error (labels ds) i) as [l|] eqn:El;
      [|apply nth_error_None in El; lia].
    simpl. eexists. split; [reflexivity|]. simpl.
    rewrite Forall_forall in Hp, Hhy.
    split; [apply Hp; eapply nth_error_In; eauto|].
    split; [apply Hhy; eapply nth_error_In; eauto | reflexivity]. }
  simpl. eexists. split; [reflexivity|].
  unfold batch_shapes, has_shape, collate. simpl. rewrite !length_map.
  repeat split; auto; apply Forall_map;
    (eapply Forall_impl; [|exact HF]); simpl; tauto.
Qed.

Lemma sampler_order_range (dl : DataLoader) (order : list nat) :
  sampler_order dl order ->
  length order = SNLIDataset_len (dataset dl) /\
  Forall (fun i => i < SNLIDataset_len (dataset dl)) order.
Proof.
  unfold sampler_order. set (n := SNLIDataset_len (dataset dl)).
  intros H.
  assert (Hp : Permutation (seq 0 n) order)
    by (destruct (shuffle dl); [exact H | rewrite H; apply Permutation_refl]).
  split.
  - rewrite <- (Permutation_length Hp). apply length_seq.
  - apply Forall_forall. intros i Hi.
    apply (Permutation_in _ (Permutation_sym Hp)) in Hi.
    apply in_seq in Hi. lia.
Qed.

Lemma Forall2_removelast {A B} (R : A -> B -> Prop) (l1 : list A) (l2 : list B) :
  Forall2 R l1 l2 -> Forall2 R (removelast l1) (removelast l2).
Proof.
  induction 1 as [|a b l1 l2 Hab HF IH]; [constructor|].
  destruct HF as [|a' b' l1' l2' Hab' HF']; [constructor|].
  change (Forall2 R (a :: removelast (a' :: l1')) (b :: removelast (b' :: l2'))).
  constructor; assumption.
Qed.

Lemma Forall2_Forall_r {A B} (R : A -> B -> Prop) (P : A -> Prop)
  (Q : B -> Prop) (l1 : list A) (l2 : list B) :
  (forall a b, R a b -> P a -> Q b) ->
  Forall2 R l1 l2 -> Forall P l1 -> Forall Q l2.
Proof.
  intros HR. induction 1; intros HP; constructor;
    inversion HP; subst; eauto.
Qed.

(** One pass over a loader raises nothing, and every batch has as many
    rows as its batch of indices. *)
Lemma iterate_ok (dl : DataLoader) (order : list nat) :
  well_formed (dataset dl) -> sampler_order dl order ->
  exists batches,
    iterate dl order = map Ok batches /\
    Forall2 (fun indices b =>
               batch_shapes b (length indices) (num_steps (dataset dl)))
            (batch_sampler (batch_size dl) (drop_last dl) [] order) batches.
Proof.
  intros Hwf Hord. unfold iterate.
  destruct (sampler_order_range dl order Hord) as [_ Hrange].
  assert (Hsub : Forall (Forall (fun i => i < SNLIDataset_len (dataset dl)))
                        (batch_sampler (batch_size dl) (drop_last dl) [] order)).
  { apply Forall_forall. intros b Hb. apply Forall_forall. intros i Hi.
    rewrite Forall_forall in Hrange. apply Hrange.
    assert (Hc : In i (concat (batch_sampler (batch_size dl) (drop_last dl)
                                 [] order)))
      by (apply in_concat; eauto).
    assert (G : forall acc, In i (concat (batch_sampler (batch_size dl)
                                            (drop_last dl) acc order)) ->
                            In i (acc ++ order)).
    { clear. induction order as [|j order IH]; intros acc; simpl.
      - destruct (negb (drop_last dl) && (0 <? length acc)); simpl;
          rewrite ?app_nil_r; tauto.
      - destruct (length (acc ++ [j]) =? batch_size dl); simpl.
        + rewrite in_app_iff. intros [H|H].
          * rewrite in_app_iff in H. rewrite in_app_iff. simpl in *. tauto.
          * apply IH in H. simpl in H. rewrite in_app_iff. simpl. tauto.
        + intros H. apply IH in H. rewrite <- app_assoc in H. exact H. }
    exact (G [] Hc). }
  induction Hsub as [|indices l Hi _ (batches & Hb & HF)].
  - exists []. split; [reflexivity | constructor].
  - destruct (fetch_ok (dataset dl) indices Hwf Hi) as (b & Hfb & Hs).
    exists (b :: batches). simpl. rewrite Hfb, Hb.
    split; [reflexivity | constructor; assumption].
Qed.

Lemma comprehension_length {A B} (f : A -> result B) (cond : A -> result bool)
  (c : A -> bool) (l : list A) (ys : list B) :
  (forall x, In x l -> cond x = Ok (c x)) ->
  comprehension f cond l = Ok ys -> length ys = length (filter c l).
Proof.
  revert ys. induction l as [|a l IH]; simpl; intros ys Hc H.
  - injection H as <-. reflexivity.
  - rewrite (Hc a (or_introl eq_refl)) in H. simpl in H.
    destruct (c a).
    + destruct (f a); simpl in H; [|discriminate].
      destruct (comprehension f cond l) as [ys'|]; simpl in H; [|discriminate].
      injection H as <-. simpl. f_equal. apply IH; auto.
    + apply IH; auto.
Qed.

(** The three sequences [read_snli] returns are parallel. *)
Lemma read_snli_lengths (text : str) (ps hs : list str) (ls : list Z) :
  read_snli text = Ok (ps, hs, ls) ->
  length hs = length ps /\ length ls = length ps.
Proof.
  unfold read_snli, read_snli_lines. fold (rows_of text).
  destruct (comprehension (fun row => s <- index row 1;; _) labelled
              (rows_of text)) as [ps'|] eqn:E1; simpl; [|discriminate].
  destruct (comprehension (fun row => s <- index row 2;; _) labelled
              (rows_of text)) as [hs'|] eqn:E2; simpl; [|discriminate].
  destruct (comprehension (fun row => l <- index row 0;; _) labelled
              (rows_of text)) as [ls'|] eqn:E3; simpl; [|discriminate].
  intros H. inversion H; subst.
  rewrite (comprehension_length _ labelled recognized _ _
             (labelled_rows_of text) E1).
  rewrite (comprehension_length _ labelled recognized _ _
             (labelled_rows_of text) E2).
  rewrite (comprehension_length _ labelled recognized _ _
             (labelled_rows_of text) E3).
  auto.
Qed.

Lemma rows_total (n : nat) (idxs : list (list nat)) (batches : list batch) :
  Forall2 (fun indices b => batch_shapes b (length indices) n) idxs batches ->
  length (concat (map (fun b => fst (fst b)) batches)) = length (concat idxs).
Proof.
  induction 1 as [|indices b idxs batches ((Hb & _) & _) _ IH]; [reflexivity|].
  simpl. rewrite !length_app, IH, Hb. reflexivity.
Qed.

(** C9 (counterexample): over a test set of three examples, which is at
    least the batch size 2, the second batch that the test iterator
    yields has one row, so its shapes are [1, 4], [1, 4] and [1, 1]. *)
Lemma last_batch_not_full :
  exists train_iter test_iter v X0 X1 Y,
    load_data_snli split_ws
      (lit "h\nneutral\ta b\tb\nentailment\tc\ta\ncontradiction\ta\tc d\n")
      (lit "h\nneutral\ta b\tb\nentailment\tc\ta\ncontradiction\ta\tc d\n")
      2 4
    = Ok (train_iter, test_iter, v) /\
    SNLIDataset_len (dataset test_iter) = 3 /\
    sampler_order test_iter [0; 1; 2] /\
    nth_error (iterate test_iter [0; 1; 2]) 1 = Some (Ok ((X0, X1), Y)) /\
    has_shape X0 1 4 /\ has_shape X1 1 4 /\ has_shape Y 1 1 /\
    ~ has_shape X0 2 4 /\ ~ has_shape X1 2 4 /\ ~ has_shape Y 2 1.
Proof.
  eexists _, _, _, _, _, _.
  split; [vm_compute; reflexivity|].
  split; [reflexivity|]. split; [reflexivity|].
  split; [vm_compute; reflexivity|].
  unfold has_shape. simpl.
  repeat split; try (repeat constructor); intros [H _]; discriminate H.
Qed.

(** C9 (amended): one pass over either iterator returned by
    [load_data_snli] raises nothing; every batch is two matrices of
    shape [k, num_steps] and a label tensor of shape [k, 1] with
    1 <= k <= batch_size; k is batch_size for every batch but the last;
    the batches hold as many rows as the dataset has examples; and over
    a dataset of at least batch_size examples the first batch has
    k = batch_size, which for batch_size 128 and num_steps 50 are the
    shapes [128, 50], [128, 50] and [128, 1]. *)
Theorem load_data_snli_batch_shapes (tokenize_line : str -> list token)
  (train_text test_text : str) (batch_size num_steps : nat)
  (train_iter test_iter : DataLoader) (v : Vocab) :
  load_data_snli tokenize_line train_text test_text batch_size num_steps
  = Ok (train_iter, test_iter, v) ->
  forall (dl : DataLoader) (order : list nat),
    dl = train_iter \/ dl = test_iter ->
    sampler_order dl order ->
    exists batches : list batch,
      iterate dl order = map Ok batches /\
      Forall (fun b => exists k, 1 <= k <= batch_size /\
                                 batch_shapes b k num_steps) batches /\
      Forall (fun b => batch_shapes b batch_size num_steps)
             (removelast batches) /\
      length (concat (map (fun b => fst (fst b)) batches))
      = SNLIDataset_len (dataset dl) /\
      (batch_size <= SNLIDataset_len (dataset dl) ->
       exists b rest, batches = b :: rest /\
                      batch_shapes b batch_size num_steps).
Proof.
  intros Hload dl order Hdl Hord.
  assert (Hdl' : well_formed (dataset dl) /\
                 Dataset.num_steps (dataset dl) = num_steps /\
                 Loader.batch_size dl = batch_size /\ drop_last dl = false /\
                 0 < batch_size).
  { destruct (load_data_snli_inv tokenize_line _ _ _ _ _ _ _ Hload)
      as (p0 & h0 & l0 & p1 & h1 & l1 & Etr & Ete & Hbs & -> & -> & _).
    apply read_snli_lengths in Etr, Ete.
    destruct Hdl as [-> | ->]; cbn [dataset Loader.batch_size drop_last].
    - destruct (SNLIDataset_init_well_formed tokenize_line p0 h0 l0 num_steps
                  None) as [Hw Hn]; [tauto | tauto |].
      split; [exact Hw|]. split; [exact Hn|].
      repeat (split; [reflexivity|]). exact Hbs.
    - destruct (SNLIDataset_init_well_formed tokenize_line p1 h1 l1 num_steps
                  (Some (vocab (SNLIDataset_init tokenize_line (p0, h0, l0)
                                  num_steps None)))) as [Hw Hn];
        [tauto | tauto |].
      split; [exact Hw|]. split; [exact Hn|].
      repeat (split; [reflexivity|]). exact Hbs. }
  destruct Hdl' as (Hwf & Hn & Hbs & Hdrop & Hpos).
  destruct (iterate_ok dl order Hwf Hord) as (batches & Hit & HF).
  rewrite Hn, Hbs, Hdrop in HF.
  destruct (sampler_order_range dl order Hord) as [Hlen _].
  exists batches. split; [exact Hit|]. split; [|split; [|split]].
  - eapply Forall2_Forall_r; [|exact HF|apply batch_sampler_sizes; simpl; lia].
    intros indices b Hs Hk. exists (length indices). simpl in Hk. auto.
  - eapply Forall2_Forall_r;
      [|apply Forall2_removelast; exact HF
       |apply batch_sampler_full; simpl; lia].
    intros indices b Hs Hk. simpl in Hk. rewrite <- Hk. exact Hs.
  - rewrite (rows_total _ _ _ HF), batch_sampler_concat. simpl. exact Hlen.
  - intros Hge.
    destruct (batch_sampler_first batch_size Hpos [] order)
      as (i0 & irest & Hi & Hk); [simpl; lia ..|].
    rewrite Hi in HF. inversion HF as [|? b ? rest Hb Hrest]; subst.
    exists b, rest. split; [reflexivity|]. rewrite <- Hk. exact Hb.
Qed.

Lemma load_data_snli_batch_shapes_witness :
  match load_data_snli split_ws
          (lit "h\n" ++ concat (repeat (lit "neutral\ta b\tb c\n") 130))
          (lit "h\n" ++ concat (repeat (lit "entailment\tc\ta b c\n") 130))
          128 50
  with
  | Ok (_, test_iter, _) =>
      exists b rest,
        iterate test_iter (seq 0 130) = Ok b :: rest /\ batch_shapes b 128 50
  | Raise _ => False
  end.
Proof.
  set (train := lit "h\n" ++ concat (repeat (lit "neutral\ta b\tb c\n") 130)).
  set (test := lit "h\n" ++ concat (repeat (lit "entailment\tc\ta b c\n") 130)).
  assert (Hs : match load_data_snli split_ws train test 128 50 with
               | Ok (_, test_iter, _) =>
                   shuffle test_iter = false /\
                   SNLIDataset_len (dataset test_iter) = 130
               | Raise _ => False
               end) by (vm_compute; auto).
  destruct (load_data_snli split_ws train test 128 50)
    as [[[train_iter test_iter] v]|e] eqn:E; [|exact Hs].
  destruct Hs as [Hshuffle Hlen].
  destruct (load_data_snli_batch_shapes split_ws train test 128 50
              train_iter test_iter v E test_iter (seq 0 130))
    as (batches & Hit & _ & _ & _ & Hfirst).
  - right. reflexivity.
  - unfold sampler_order. rewrite Hshuffle, Hlen. reflexivity.
  - destruct Hfirst as (b & rest & -> & Hb); [rewrite Hlen; lia|].
    exists b, (map Ok rest). split; [exact Hit | exact Hb].
Defined.

(** * Further properties *)

(** ** Further properties of [extract_text] *)

Lemma filter_all {A} (f : A -> bool) (l : list A) :
  (forall x, In x l -> f x = true) -> filter f l = l.
Proof.
  induction l as [|a l IH]; intros H; simpl; [reflexivity|].
  rewrite (H a (or_introl eq_refl)), IH; [reflexivity|].
  intros x Hx. apply H. right. exact Hx.
Qed.

Lemma filter_filter {A} (f g : A -> bool) (l : list A) :
  filter f (filter g l) = filter (fun x => g x && f x) l.
Proof.
  induction l as [|a l IH]; simpl; [reflexivity|].
  destruct (g a); simpl; [destruct (f a)|]; rewrite IH; reflexivity.
Qed.

(** The third substitution leaves a string without whitespace runs as
    it is. *)
Lemma re_sub_spaces_id (repl s : str) :
  space_run_free s = true -> re_sub (PSpaces 2) repl s = s.
Proof.
  induction s as [|c t IH]; intros H; [reflexivity|].
  simpl in H. apply andb_true_iff in H. destruct H as [H1 H2].
  rewrite re_sub_spaces_cons. apply negb_true_iff in H1. rewrite H1.
  rewrite IH by exact H2. reflexivity.
Qed.

Lemma lstrip_id (s : str) : starts_with_space s = false -> lstrip s = s.
Proof. destruct s as [|c t]; simpl; [reflexivity|]. intros ->. reflexivity. Qed.

Lemma strip_id (s : str) :
  starts_with_space s = false -> starts_with_space (rev s) = false ->
  strip s = s.
Proof.
  intros H1 H2. unfold strip, rstrip.
  rewrite (lstrip_id s H1), (lstrip_id (rev s) H2). apply rev_involutive.
Qed.

Lemma space_run_free_complete (s : str) :
  (forall a c1 c2 b, s = a ++ c1 :: c2 :: b ->
                     ~ (isspace c1 = true /\ isspace c2 = true)) ->
  space_run_free s = true.
Proof.
  induction s as [|c t IH]; intros H; [reflexivity|]. simpl.
  apply andb_true_iff. split.
  - destruct t as [|d t]; [rewrite andb_false_r; reflexivity|]. simpl.
    apply negb_true_iff, not_true_is_false. intros E.
    apply andb_true_iff in E. exact (H [] c d t eq_refl E).
  - apply IH. intros a c1 c2 b E. apply (H (c :: a) c1 c2 b).
    rewrite E. reflexivity.
Qed.

Lemma trimmed_ends (s : str) :
  trimmed s ->
  starts_with_space s = false /\ starts_with_space (rev s) = false.
Proof.
  intros [Hh Hl]. split.
  - destruct s as [|c t]; [reflexivity|]. exact (Hh c t eq_refl).
  - destruct (rev s) as [|c r] eqn:E; [reflexivity|]. simpl.
    apply (Hl c (rev r)). rewrite <- (rev_involutive s), E. reflexivity.
Qed.

Lemma extract_text_unchanged (s : str) :
  clean s -> trimmed s -> extract_text s = s.
Proof.
  intros (Hl & Hr & Hrun) Ht. unfold extract_text.
  rewrite !re_sub_char_delete.
  rewrite (filter_all (fun x => negb (x =? lparen)%N) s).
  - rewrite (filter_all (fun x => negb (x =? rparen)%N) s).
    + rewrite re_sub_spaces_id by (apply space_run_free_complete; exact Hrun).
      destruct (trimmed_ends s Ht) as [H1 H2]. apply strip_id; assumption.
    + intros x Hx. apply negb_true_iff, N.eqb_neq. intros ->. exact (Hr Hx).
  - intros x Hx. apply negb_true_iff, N.eqb_neq. intros ->. exact (Hl Hx).
Qed.

(** X1: the strings that [extract_text] leaves unchanged are exactly the
    cleaned and trimmed ones: those without parentheses, without two
    adjacent whitespace characters and without whitespace at either
    end. *)
Theorem extract_text_fixed_point (s : str) :
  extract_text s = s <-> clean s /\ trimmed s.
Proof.
  split.
  - intros H. rewrite <- H. split;
      [apply extract_text_clean | apply extract_text_trimmed].
  - intros [Hc Ht]. apply extract_text_unchanged; assumption.
Qed.

(** X2: cleaning a cleaned string changes nothing. *)
Theorem extract_text_idempotent (s : str) :
  extract_text (extract_text s) = extract_text s.
Proof.
  apply extract_text_unchanged;
    [apply extract_text_clean | apply extract_text_trimmed].
Qed.

Lemma filter_lstrip (s : str) :
  filter (fun c => negb (isspace c)) (lstrip s)
  = filter (fun c => negb (isspace c)) s.
Proof.
  induction s as [|c t IH]; [reflexivity|]. simpl.
  destruct (isspace c) eqn:E; simpl; [exact IH | rewrite E; reflexivity].
Qed.

Lemma filter_strip (s : str) :
  filter (fun c => negb (isspace c)) (strip s)
  = filter (fun c => negb (isspace c)) s.
Proof.
  unfold strip, rstrip.
  rewrite filter_rev, filter_lstrip, <- filter_rev, rev_involutive.
  apply filter_lstrip.
Qed.

Lemma filter_re_sub_spaces_upto (n : nat) :
  forall s, length s <= n ->
            filter (fun c => negb (isspace c)) (re_sub (PSpaces 2) (lit " ") s)
            = filter (fun c => negb (isspace c)) s.
Proof.
  induction n as [|n IH]; intros [|c t] Hlen; simpl in Hlen;
    try reflexivity; try lia.
  rewrite re_sub_spaces_cons.
  destruct (isspace c && starts_with_space t) eqn:E.
  - apply andb_true_iff in E. destruct E as [Ec _].
    change (lit " " ++ ?x) with (space :: x). simpl. rewrite Ec. simpl.
    rewrite IH by (pose proof (lstrip_length t); lia).
    apply filter_lstrip.
  - simpl. rewrite IH by lia. reflexivity.
Qed.

(** The characters of a string that are neither whitespace nor a
    parenthesis. *)
Lemma filter_extract_text (s : str) :
  filter (fun c => negb (isspace c)) (extract_text s)
  = filter (fun c => negb (isspace c))
      (filter (fun c => negb (c =? rparen)%N)
         (filter (fun c => negb (c =? lparen)%N) s)).
Proof.
  unfold extract_text. rewrite filter_strip.
  rewrite (filter_re_sub_spaces_upto _ _ (le_n _)).
  rewrite !re_sub_char_delete. reflexivity.
Qed.

(** X3: [extract_text] keeps every character that is neither whitespace
    nor a parenthesis, in order, and adds none: only whitespace and
    parentheses are ever removed or replaced. *)
Theorem extract_text_keeps_content (s : str) :
  filter (fun c => negb (isspace c)) (extract_text s)
  = filter (fun c => negb (c =? lparen)%N && negb (c =? rparen)%N
                     && negb (isspace c)) s.
Proof.
  rewrite filter_extract_text, !filter_filter. apply filter_ext.
  intros c. apply andb_assoc.
Qed.

(** X4: the cleaned text is empty exactly when the field holds nothing
    but whitespace and parentheses. *)
Theorem extract_text_empty_iff (s : str) :
  extract_text s = [] <->
  Forall (fun c => isspace c = true \/ c = lparen \/ c = rparen) s.
Proof.
  pose proof (filter_extract_text s) as K. rewrite !filter_filter in K. split.
  - intros E. rewrite E in K. simpl in K. apply Forall_forall. intros c Hc.
    destruct (isspace c) eqn:Es; [auto|]. right.
    destruct (N.eqb_spec c lparen) as [|Hl]; [auto|].
    destruct (N.eqb_spec c rparen) as [|Hr]; [auto|]. exfalso.
    assert (Hin : In c []); [|exact Hin].
    rewrite K. apply filter_In. split; [exact Hc|]. rewrite Es.
    apply N.eqb_neq in Hl, Hr. rewrite Hl, Hr. reflexivity.
  - intros H. destruct (extract_text s) as [|c t] eqn:E; [reflexivity|]. exfalso.
    pose proof (extract_text_trimmed s) as [Hh _]. rewrite E in Hh.
    specialize (Hh c t eq_refl).
    assert (Hin : In c (filter (fun c => negb (isspace c)) (c :: t)))
      by (simpl; rewrite Hh; left; reflexivity).
    rewrite K in Hin. apply filter_In in Hin. destruct Hin as [Hc Hf].
    rewrite Forall_forall in H. specialize (H c Hc).
    rewrite Hh in H.
    destruct H as [H|[->| ->]]; [discriminate | discriminate Hf ..].
Qed.

Lemma lstrip_app (a b : str) :
  lstrip (a ++ b) = match lstrip a with [] => lstrip b | x => x ++ b end.
Proof.
  induction a as [|c a IH]; simpl; [destruct (lstrip b); reflexivity|].
  destruct (isspace c); [exact IH | reflexivity].
Qed.

Lemma lstrip_spaces (w s : str) :
  Forall (fun c => isspace c = true) w -> lstrip (w ++ s) = lstrip s.
Proof. induction 1 as [|c w Hc _ IH]; simpl; [reflexivity|]. rewrite Hc. exact IH. Qed.

Lemma rstrip_cons (c : char) (t : str) :
  rstrip (c :: t) =
  match rstrip t with
  | [] => if isspace c then [] else [c]
  | r => c :: r
  end.
Proof.
  unfold rstrip. simpl rev. rewrite lstrip_app.
  destruct (lstrip (rev t)) as [|x l]; simpl.
  - destruct (isspace c); reflexivity.
  - rewrite rev_app_distr. simpl.
    destruct (rev l ++ [x]) eqn:E; [destruct (rev l); discriminate | reflexivity].
Qed.

(** Stripping the two ends can be done in either order. *)
Lemma rstrip_lstrip (s : str) : rstrip (lstrip s) = lstrip (rstrip s).
Proof.
  induction s as [|c t IH]; [reflexivity|].
  rewrite rstrip_cons. simpl. destruct (isspace c) eqn:Ec.
  - rewrite IH. destruct (rstrip t) as [|d r]; [reflexivity|].
    simpl. rewrite Ec. reflexivity.
  - rewrite rstrip_cons, Ec.
    destruct (rstrip t); simpl; rewrite Ec; reflexivity.
Qed.

Lemma strip_space_cons (c : char) (s : str) :
  isspace c = true -> strip (c :: s) = strip s.
Proof. intros H. unfold strip. simpl. rewrite H. reflexivity. Qed.

Lemma starts_with_space_snoc (t : str) (w : char) :
  isspace w = true ->
  starts_with_space (t ++ [w]) =
  match t with [] => true | _ => starts_with_space t end.
Proof. intros H. destruct t; simpl; [exact H | reflexivity]. Qed.

(** A whitespace character at the end does not survive substitution
    and right-stripping. *)
Lemma rstrip_re_sub_snoc_upto (w : char) (n : nat) :
  isspace w = true ->
  forall u, length u <= n ->
    rstrip (re_sub (PSpaces 2) (lit " ") (u ++ [w]))
    = rstrip (re_sub (PSpaces 2) (lit " ") u).
Proof.
  intros Hw. induction n as [|n IH]; intros [|c t] Hlen; simpl in Hlen; try lia.
  - simpl app. rewrite re_sub_spaces_cons. simpl. rewrite andb_false_r.
    simp re_sub. rewrite rstrip_cons, Hw. reflexivity.
  - simpl app. rewrite re_sub_spaces_cons. simpl. rewrite andb_false_r.
    simp re_sub. rewrite rstrip_cons, Hw. reflexivity.
  - simpl app. rewrite !re_sub_spaces_cons, (starts_with_space_snoc t w Hw).
    destruct (isspace c) eqn:Ec; simpl.
    + destruct t as [|d t'].
      * simpl. rewrite Hw. simp re_sub.
        change (lit " " ++ []) with [space].
        rewrite !rstrip_cons, Ec. reflexivity.
      * destruct (starts_with_space (d :: t')) eqn:Ed.
        -- change (lit " " ++ ?x) with (space :: x).
           rewrite !(rstrip_cons space). rewrite lstrip_app.
           destruct (lstrip (d :: t')) as [|x l] eqn:El.
           ++ simpl lstrip. rewrite Hw. reflexivity.
           ++ rewrite IH; [reflexivity|].
              pose proof (lstrip_length (d :: t')) as Hl. rewrite El in Hl. lia.
        -- rewrite !(rstrip_cons c), IH by lia. reflexivity.
    + rewrite !(rstrip_cons c), IH by lia. reflexivity.
Qed.

Lemma rstrip_re_sub_app (u w : str) :
  Forall (fun c => isspace c = true) w ->
  rstrip (re_sub (PSpaces 2) (lit " ") (u ++ w))
  = rstrip (re_sub (PSpaces 2) (lit " ") u).
Proof.
  induction w as [|x w IH] using rev_ind; intros H; [rewrite app_nil_r; reflexivity|].
  apply Forall_app in H. destruct H as [Hw Hx]. inversion Hx; subst.
  rewrite app_assoc, (rstrip_re_sub_snoc_upto x (length (u ++ w))) by auto.
  apply IH. exact Hw.
Qed.

(** Leading whitespace does not survive substitution and stripping. *)
Lemma strip_re_sub_lstrip (u : str) :
  strip (re_sub (PSpaces 2) (lit " ") u)
  = strip (re_sub (PSpaces 2) (lit " ") (lstrip u)).
Proof.
  induction u as [|c t IH]; [reflexivity|]. simpl lstrip.
  destruct (isspace c) eqn:Ec; [|reflexivity].
  rewrite re_sub_spaces_cons, Ec. simpl.
  destruct (starts_with_space t).
  - change (lit " " ++ ?x) with (space :: x).
    apply strip_space_cons. reflexivity.
  - rewrite strip_space_cons by exact Ec. exact IH.
Qed.

Lemma filter_paren_spaces (p : char) (w : str) :
  isspace p = false ->
  Forall (fun c => isspace c = true) w ->
  filter (fun x : N => negb (x =? p)%N) w = w.
Proof.
  intros Hp H. apply filter_all. intros x Hx. rewrite Forall_forall in H.
  apply negb_true_iff, N.eqb_neq. intros ->. rewrite (H p Hx) in Hp.
  discriminate.
Qed.

(** X5: whitespace around a field does not matter: [extract_text] gives
    the same text with any whitespace put before and after its
    argument. *)
Theorem extract_text_ignores_outer_space (w1 s w2 : str) :
  Forall (fun c => isspace c = true) w1 ->
  Forall (fun c => isspace c = true) w2 ->
  extract_text (w1 ++ s ++ w2) = extract_text s.
Proof.
  intros H1 H2. unfold extract_text. rewrite !re_sub_char_delete.
  rewrite !filter_app.
  unfold char in *.
  rewrite (filter_paren_spaces lparen w1 eq_refl H1).
  rewrite (filter_paren_spaces lparen w2 eq_refl H2).
  rewrite (filter_paren_spaces rparen w1 eq_refl H1).
  rewrite (filter_paren_spaces rparen w2 eq_refl H2).
  rewrite strip_re_sub_lstrip, lstrip_spaces by exact H1.
  rewrite <- strip_re_sub_lstrip.
  unfold strip. rewrite !rstrip_lstrip, rstrip_re_sub_app by exact H2.
  reflexivity.
Qed.

Lemma extract_text_ignores_outer_space_witness :
  extract_text (lit " \n" ++ lit "( A  dog )" ++ lit "\n")
  = extract_text (lit "( A  dog )").
Proof.
  apply extract_text_ignores_outer_space;
    apply Forall_forall; intros c Hc; vm_compute in Hc;
    intuition (subst; reflexivity).
Defined.

(** ** Further properties of [read_snli] *)

Lemma comprehension_app {A B} (f : A -> result B) (cond : A -> result bool)
  (l1 l2 : list A) :
  comprehension f cond (l1 ++ l2) =
  (xs <- comprehension f cond l1 ;;
   ys <- comprehension f cond l2 ;; Ok (xs ++ ys)).
Proof.
  induction l1 as [|a l1 IH]; simpl.
  - destruct (comprehension f cond l2); reflexivity.
  - destruct (cond a) as [[|]|]; simpl; [|exact IH|reflexivity].
    destruct (f a); simpl; [|reflexivity]. rewrite IH.
    destruct (comprehension f cond l1); simpl; [|reflexivity].
    destruct (comprehension f cond l2); reflexivity.
Qed.

(** A comprehension raises only what its body raises on the elements
    that pass the condition. *)
Lemma comprehension_exn_kept {A B} (f : A -> result B)
  (cond : A -> result bool) (c : A -> bool) (e e' : exn) (l : list A) :
  (forall x, In x l -> cond x = Ok (c x)) ->
  (forall x, In x l -> c x = true -> f x = Raise e \/ exists y, f x = Ok y) ->
  comprehension f cond l = Raise e' -> e' = e.
Proof.
  induction l as [|a l IH]; simpl; intros Hc Hf H; [discriminate|].
  rewrite (Hc a (or_introl eq_refl)) in H. simpl in H.
  assert (IH' : comprehension f cond l = Raise e' -> e' = e)
    by (apply IH; intros; [apply Hc | apply Hf]; auto).
  destruct (c a) eqn:Ea; [|auto].
  destruct (Hf a (or_introl eq_refl) Ea) as [Ha|[y Ha]]; rewrite Ha in H;
    simpl in H.
  - congruence.
  - destruct (comprehension f cond l); simpl in H; [discriminate|].
    apply IH'. congruence.
Qed.

(** The lookup [label_set[row[0]]] succeeds on every row that passed the
    filter [row[0] in label_set]. *)
Lemma label_lookup_ok (row : list str) :
  row <> [] -> recognized row = true ->
  (l <- index row 0 ;; dict_get label_set l) = Ok (label_of row).
Proof.
  intros Hne Hrec. destruct row as [|f row]; [congruence|].
  pose proof (label_of_spec (f :: row) Hrec) as H. cbn [nth] in H.
  unfold index. cbn [nth_error bind]. unfold dict_get. rewrite H.
  reflexivity.
Qed.

Lemma read_snli_ok (text : str) :
  Forall (fun row => recognized row = true -> 3 <= length row) (rows_of text) ->
  exists r, read_snli text = Ok r.
Proof.
  intros H. rewrite Forall_forall in H.
  unfold read_snli, read_snli_lines. fold (rows_of text).
  rewrite (comprehension_ok _ labelled recognized
             (fun row => extract_text (nth 1 row [])));
    [| apply labelled_rows_of
     | intros row Hin Hrec;
       rewrite (index_nth row 1 []) by (specialize (H row Hin Hrec); lia);
       reflexivity ].
  rewrite (comprehension_ok _ labelled recognized
             (fun row => extract_text (nth 2 row [])));
    [| apply labelled_rows_of
     | intros row Hin Hrec;
       rewrite (index_nth row 2 []) by (specialize (H row Hin Hrec); lia);
       reflexivity ].
  rewrite (comprehension_ok _ labelled recognized label_of);
    [simpl; eauto | apply labelled_rows_of |].
  intros row Hin Hrec. apply label_lookup_ok; [|exact Hrec].
  exact (rows_of_nonempty text row Hin).
Qed.

Lemma read_snli_raises_on_short_row (text : str) (row : list str) :
  In row (rows_of text) -> recognized row = true -> length row < 3 ->
  exists e, read_snli text = Raise e.
Proof.
  intros Hin Hrec Hlen.
  destruct (read_snli text) as [[[ps hs] ls]|e] eqn:E; [|eauto]. exfalso.
  unfold read_snli, read_snli_lines in E. fold (rows_of text) in E.
  destruct (comprehension (fun row => s <- index row 1;; _) labelled
              (rows_of text)) as [ps'|] eqn:E1; simpl in E; [|discriminate].
  rewrite (comprehension_raise
             (fun row => s <- index row 2;; Ok (extract_text s)) labelled
             IndexError (rows_of text)) in E; [discriminate| | |].
  - intros x Hx. rewrite (labelled_rows_of text x Hx). eauto.
  - intros x _. apply field_ok_or_IndexError.
  - exists row. split; [exact Hin|]. split.
    + rewrite (labelled_rows_of text row Hin), Hrec. reflexivity.
    + rewrite index_out by lia. reflexivity.
Qed.

Lemma read_snli_labels_comprehension (text : str) (ps hs : list str)
  (ls : list Z) :
  read_snli text = Ok (ps, hs, ls) ->
  comprehension (fun row => l <- index row 0 ;; dict_get label_set l)
    labelled (rows_of text) = Ok ls.
Proof.
  unfold read_snli, read_snli_lines. fold (rows_of text).
  destruct (comprehension (fun row => s <- index row 1;; _) labelled
              (rows_of text)) as [ps'|] eqn:E1; simpl; [|discriminate].
  destruct (comprehension (fun row => s <- index row 2;; _) labelled
              (rows_of text)) as [hs'|] eqn:E2; simpl; [|discriminate].
  destruct (comprehension (fun row => l <- index row 0;; _) labelled
              (rows_of text)) as [ls'|] eqn:E3; simpl; [|discriminate].
  intros H. inversion H; subst. reflexivity.
Qed.

Lemma label_value_in_range (row : list str) (z : Z) :
  (l <- index row 0 ;; dict_get label_set l) = Ok z ->
  (z = 0 \/ z = 1 \/ z = 2)%Z.
Proof.
  unfold index. destruct (nth_error row 0); simpl; [|discriminate].
  unfold dict_get. destruct (dict_find label_set s) as [z'|] eqn:Ez;
    [|discriminate].
  intros [= <-]. apply label_set_spec in Ez. tauto.
Qed.

(** X6: every label that [read_snli] returns is 0, 1 or 2. *)
Theorem read_snli_labels_in_range (text : str) (ps hs : list str)
  (ls : list Z) :
  read_snli text = Ok (ps, hs, ls) ->
  Forall (fun l => l = 0 \/ l = 1 \/ l = 2)%Z ls.
Proof.
  intros H. apply read_snli_labels_comprehension in H.
  refine (comprehension_Forall _ _ _ _ _ _ H). apply label_value_in_range.
Qed.

Lemma read_snli_labels_in_range_witness :
  Forall (fun l => l = 0 \/ l = 1 \/ l = 2)%Z [2; 0; 1]%Z.
Proof.
  apply (read_snli_labels_in_range
           (lit "h\nneutral\ta\tb\nentailment\tc\td\n-\te\tf\ncontradiction\tg\th\n")
           [lit "a"; lit "c"; lit "g"] [lit "b"; lit "d"; lit "h"]).
  vm_compute. reflexivity.
Defined.

(** X7: the only exception [read_snli] raises while parsing is
    [IndexError]; in particular the lookup [label_set[row[0]]] never
    raises [KeyError], because the same filter guards it. *)
Theorem read_snli_only_IndexError (text : str) (e : exn) :
  read_snli text = Raise e -> e = IndexError.
Proof.
  unfold read_snli, read_snli_lines. fold (rows_of text).
  destruct (comprehension (fun row => s <- index row 1;; _) labelled
              (rows_of text)) as [ps|e1] eqn:E1; simpl.
  - destruct (comprehension (fun row => s <- index row 2;; _) labelled
                (rows_of text)) as [hs|e2] eqn:E2; simpl.
    + destruct (comprehension (fun row => l <- index row 0;; _) labelled
                  (rows_of text)) as [ls|e3] eqn:E3; simpl; [discriminate|].
      intros [= <-].
      eapply comprehension_exn_kept with (c := recognized);
        [apply (labelled_rows_of text) | | exact E3].
      intros row Hin Hrec. right. eexists.
      apply label_lookup_ok; [exact (rows_of_nonempty text row Hin)|exact Hrec].
    + intros [= <-].
      eapply comprehension_exn_kept with (c := recognized);
        [apply (labelled_rows_of text) | | exact E2].
      intros row _ _. apply field_ok_or_IndexError.
  - intros [= <-].
    eapply comprehension_exn_kept with (c := recognized);
      [apply (labelled_rows_of text) | | exact E1].
    intros row _ _. apply field_ok_or_IndexError.
Qed.

Lemma read_snli_only_IndexError_witness : IndexError = IndexError.
Proof.
  apply (read_snli_only_IndexError (lit "h\n-\tx\nneutral\ta\n") IndexError).
  vm_compute. reflexivity.
Defined.

(** X8: [read_snli] raises exactly when some row after the first line
    has a recognized label and fewer than three fields; rows with other
    first fields may be as short as they like. *)
Theorem read_snli_raises_iff (text : str) :
  (exists e, read_snli text = Raise e) <-> Exists short_row (rows_of text).
Proof.
  split.
  - intros [e H].
    destruct (Exists_dec short_row (rows_of text)) as [Hex|Hnex];
      [| exact Hex |].
    + intros row. unfold short_row.
      destruct (recognized row); [|right; intros [? _]; discriminate].
      destruct (lt_dec (length row) 3); [left; auto | right; tauto].
    + exfalso. apply Forall_Exists_neg in Hnex.
      destruct (read_snli_ok text) as [r Hr]; [|congruence].
      eapply Forall_impl; [|exact Hnex]. unfold short_row. simpl.
      intros row Hn Hrec.
      destruct (le_lt_dec 3 (length row)); [assumption|tauto].
  - intros H. apply Exists_exists in H. destruct H as (row & Hin & Hrec & Hlen).
    exact (read_snli_raises_on_short_row text row Hin Hrec Hlen).
Qed.

Lemma read_snli_first_line (line rest : str) :
  ~ In newline line ->
  read_snli (line ++ newline :: rest)
  = read_snli_lines ((line ++ [newline]) :: readlines rest).
Proof. intros H. unfold read_snli. rewrite (readlines_line line rest H). reflexivity. Qed.

(** X9: the first line is never parsed: two files that differ only in
    their first line read the same, and a file of a single line, with or
    without its newline, reads as the empty corpus even when that line
    looks like a labelled row. *)
Theorem read_snli_header_ignored :
  (forall h1 h2 rest : str,
      ~ In newline h1 -> ~ In newline h2 ->
      read_snli (h1 ++ newline :: rest) = read_snli (h2 ++ newline :: rest)) /\
  (forall h : str,
      ~ In newline h ->
      read_snli h = Ok ([], [], []) /\
      read_snli (h ++ [newline]) = Ok ([], [], [])).
Proof.
  split.
  - intros h1 h2 rest H1 H2.
    rewrite (read_snli_first_line h1 rest H1), (read_snli_first_line h2 rest H2).
    reflexivity.
  - intros h Hh. split.
    + destruct h as [|c h]; [reflexivity|]. unfold read_snli.
      rewrite readlines_last by (exact Hh || discriminate). reflexivity.
    + rewrite (read_snli_first_line h [] Hh). reflexivity.
Qed.

Lemma read_snli_header_ignored_witness :
  read_snli (lit "neutral\ta\n-\tb\nentailment\tc\td\n")
  = read_snli (lit "gold_label\tsentence1\tsentence2\n-\tb\nentailment\tc\td\n") /\
  read_snli (lit "entailment\tA man\tA person") = Ok ([], [], []).
Proof.
  destruct read_snli_header_ignored as [Hdiff Hone]. split.
  - replace (lit "neutral\ta\n-\tb\nentailment\tc\td\n")
      with (lit "neutral\ta" ++ newline :: lit "-\tb\nentailment\tc\td\n")
      by (vm_compute; reflexivity).
    replace (lit "gold_label\tsentence1\tsentence2\n-\tb\nentailment\tc\td\n")
      with (lit "gold_label\tsentence1\tsentence2" ++ newline ::
            lit "-\tb\nentailment\tc\td\n")
      by (vm_compute; reflexivity).
    apply Hdiff; apply forallb_not_In; vm_compute; reflexivity.
  - apply Hone. apply forallb_not_In. vm_compute. reflexivity.
Defined.

Lemma read_snli_lines_app (x y : str) (l1 l2 : list str)
  (p1 h1 p2 h2 : list str) (y1 y2 : list Z) :
  read_snli_lines (x :: l1) = Ok (p1, h1, y1) ->
  read_snli_lines (y :: l2) = Ok (p2, h2, y2) ->
  read_snli_lines (x :: l1 ++ l2) = Ok (p1 ++ p2, h1 ++ h2, y1 ++ y2).
Proof.
  unfold read_snli_lines. cbn [skipn]. rewrite map_app, !comprehension_app.
  destruct (comprehension (fun row => s <- index row 1;; _) labelled
              (map (split tab) l1)) as [a1|]; simpl; [|discriminate].
  destruct (comprehension (fun row => s <- index row 2;; _) labelled
              (map (split tab) l1)) as [b1|]; simpl; [|discriminate].
  destruct (comprehension (fun row => l <- index row 0;; _) labelled
              (map (split tab) l1)) as [c1|]; simpl; [|discriminate].
  intros H1. inversion H1; subst.
  destruct (comprehension (fun row => s <- index row 1;; _) labelled
              (map (split tab) l2)) as [a2|]; simpl; [|discriminate].
  destruct (comprehension (fun row => s <- index row 2;; _) labelled
              (map (split tab) l2)) as [b2|]; simpl; [|discriminate].
  destruct (comprehension (fun row => l <- index row 0;; _) labelled
              (map (split tab) l2)) as [c2|]; simpl; [|discriminate].
  intros H2. inversion H2; subst. reflexivity.
Qed.

(** X10: reading is compositional and keeps the order of the file: if a
    first part (ending in a newline) reads as [(p1, h1, y1)] and the
    rest, put under any header line, reads as [(p2, h2, y2)], then the
    whole file reads as the three concatenations. *)
Theorem read_snli_app (pre header post : str)
  (p1 h1 p2 h2 : list str) (y1 y2 : list Z) :
  ~ In newline header ->
  read_snli (pre ++ [newline]) = Ok (p1, h1, y1) ->
  read_snli (header ++ newline :: post) = Ok (p2, h2, y2) ->
  read_snli ((pre ++ [newline]) ++ post) = Ok (p1 ++ p2, h1 ++ h2, y1 ++ y2).
Proof.
  intros Hh H1 H2. rewrite (read_snli_first_line header post Hh) in H2.
  unfold read_snli in *. rewrite readlines_app.
  destruct (readlines_header pre) as (x & lines & E). rewrite E in *.
  exact (read_snli_lines_app x _ lines _ _ _ _ _ _ _ H1 H2).
Qed.

Lemma read_snli_app_witness :
  read_snli ((lit "h\nneutral\ta\tb" ++ [newline]) ++ lit "-\tx\nentailment\tc\td\n")
  = Ok ([lit "a"] ++ [lit "c"], [lit "b"] ++ [lit "d"], [2%Z] ++ [0%Z]).
Proof.
  apply (read_snli_app (lit "h\nneutral\ta\tb") (lit "other")
           (lit "-\tx\nentailment\tc\td\n")).
  - apply forallb_not_In. vm_compute. reflexivity.
  - vm_compute. reflexivity.
  - vm_compute. reflexivity.
Defined.

Lemma count_labels (ls : list Z) :
  Forall (fun l => l = 0 \/ l = 1 \/ l = 2)%Z ls ->
  count_occ Z.eq_dec ls 0%Z + count_occ Z.eq_dec ls 1%Z
  + count_occ Z.eq_dec ls 2%Z = length ls.
Proof.
  induction 1 as [|l ls Hl _ IH]; [reflexivity|]. simpl.
  destruct Hl as [->|[->| ->]]; simpl; lia.
Qed.

(** X11: the three class counts that the notebook prints for the data
    returned by [read_snli] add up to the number of examples: every
    example is counted in exactly one class. *)
Theorem label_counts_total (text : str) (ps hs : list str) (ls : list Z) :
  read_snli text = Ok (ps, hs, ls) ->
  list_sum (label_counts ls) = length ps /\ length (label_counts ls) = 3.
Proof.
  intros H. split; [|reflexivity].
  destruct (read_snli_lengths text ps hs ls H) as [_ <-].
  apply read_snli_labels_comprehension in H.
  rewrite <- (count_labels ls)
    by (refine (comprehension_Forall _ _ _ _ _ _ H);
        apply label_value_in_range).
  unfold label_counts. simpl. lia.
Qed.

Lemma label_counts_total_witness :
  list_sum (label_counts [2; 0; 2]%Z) = 3.
Proof.
  apply (label_counts_total
           (lit "h\nneutral\ta\tb\nentailment\tc\td\n-\te\tf\nneutral\tg\th\n")
           [lit "a"; lit "c"; lit "g"] [lit "b"; lit "d"; lit "h"] [2; 0; 2]%Z).
  vm_compute. reflexivity.
Defined.

(** ** Lines and fields lose nothing *)

Lemma concat_readlines (s : str) : concat (readlines s) = s.
Proof.
  induction s as [|c s IH]; [reflexivity|]. simpl.
  destruct (c =? newline)%N; simpl; [rewrite IH; reflexivity|].
  destruct (readlines s) as [|l ls]; simpl in *; rewrite <- IH; reflexivity.
Qed.

Lemma join_split (sep : char) (s : str) : join sep (split sep s) = s.
Proof.
  induction s as [|c s IH]; [reflexivity|]. simpl.
  destruct (N.eqb_spec c sep) as [->|Hne].
  - pose proof (split_nonempty sep s) as Hn.
    simpl. destruct (split sep s) as [|f fs]; [congruence|].
    rewrite IH. reflexivity.
  - pose proof (split_nonempty sep s) as Hn.
    destruct (split sep s) as [|f fs]; [congruence|].
    simpl in *. destruct fs; rewrite <- IH; reflexivity.
Qed.

Lemma split_fields_no_sep (sep : char) (s : str) :
  Forall (fun f => ~ In sep f) (split sep s).
Proof.
  induction s as [|c s IH]; simpl; [repeat constructor; auto|].
  destruct (N.eqb_spec c sep) as [->|Hne].
  - constructor; [auto | exact IH].
  - destruct (split sep s) as [|f fs]; [repeat constructor; simpl; intuition|].
    inversion IH; subst. constructor; [|assumption].
    simpl. intuition.
Qed.

(** X12: splitting the file into rows loses and invents nothing: the
    first line followed by the rows, each joined by tabs, is the text of
    the file, and no field contains a tab. *)
Theorem rows_of_lossless (text : str) :
  concat (firstn 1 (readlines text)) ++ concat (map (join tab) (rows_of text))
  = text /\
  Forall (Forall (fun f => ~ In tab f)) (rows_of text).
Proof.
  split.
  - unfold rows_of. rewrite map_map.
    rewrite (map_ext _ (fun l => l) (join_split tab)), map_id.
    rewrite <- concat_app, firstn_skipn. apply concat_readlines.
  - unfold rows_of. apply Forall_map, Forall_forall. intros line _.
    apply split_fields_no_sep.
Qed.

(** ** The final newline *)

Lemma extract_text_snoc_space (s : str) (w : char) :
  isspace w = true -> extract_text (s ++ [w]) = extract_text s.
Proof.
  intros Hw. unfold extract_text. rewrite !re_sub_char_delete, !filter_app.
  assert (Hf : forall p, isspace p = false ->
                         filter (fun x : N => negb (x =? p)%N) [w] = [w]).
  { intros p Hp. simpl. destruct (N.eqb_spec w p) as [->|_]; [congruence|].
    reflexivity. }
  unfold char in *.
  rewrite (Hf lparen eq_refl), (Hf rparen eq_refl).
  unfold strip. rewrite !rstrip_lstrip.
  rewrite (rstrip_re_sub_snoc_upto w _ Hw _ (le_n _)). reflexivity.
Qed.

Lemma split_snoc (sep c : char) (s : str) :
  c <> sep ->
  exists init lastf,
    split sep s = init ++ [lastf] /\
    split sep (s ++ [c]) = init ++ [lastf ++ [c]].
Proof.
  intros Hc. induction s as [|d t (init & lastf & E1 & E2)]; simpl.
  - exists [], []. apply N.eqb_neq in Hc. rewrite Hc. auto.
  - rewrite E1, E2. destruct (d =? sep)%N.
    + exists ([] :: init), lastf. auto.
    + destruct init as [|i0 init]; simpl.
      * exists [], (d :: lastf). auto.
      * exists ((d :: i0) :: init), lastf. auto.
Qed.

Lemma field_snoc_newline (i : nat) (init : list str) (lastf : str) :
  (s <- index (init ++ [lastf ++ [newline]]) i ;; Ok (extract_text s))
  = (s <- index (init ++ [lastf]) i ;; Ok (extract_text s)).
Proof.
  unfold index. destruct (Nat.lt_ge_cases i (length init)) as [H|H].
  - rewrite !nth_error_app1 by exact H. reflexivity.
  - rewrite !nth_error_app2 by exact H.
    destruct (i - length init) as [|k]; simpl.
    + rewrite extract_text_snoc_space by reflexivity. reflexivity.
    + destruct k; reflexivity.
Qed.

Lemma label_has_no_newline (s : str) :
  dict_mem (s ++ [newline]) label_set = false.
Proof.
  unfold dict_mem.
  destruct (dict_find label_set (s ++ [newline])) as [l|] eqn:E; [|reflexivity].
  exfalso. apply label_set_spec in E.
  assert (Hin : In newline (s ++ [newline]))
    by (apply in_or_app; right; left; reflexivity).
  destruct E as [[E _]|[[E _]|[E _]]]; rewrite E in Hin; revert Hin;
    apply forallb_not_In; vm_compute; reflexivity.
Qed.

Lemma comprehension_last_ext {A B} (f : A -> result B)
  (cond : A -> result bool) (l : list A) (x x' : A) :
  cond x' = cond x -> (cond x = Ok true -> f x' = f x) ->
  comprehension f cond (l ++ [x']) = comprehension f cond (l ++ [x]).
Proof.
  intros Hc Hf. rewrite !comprehension_app. simpl. rewrite Hc.
  destruct (cond x) as [[|]|]; [rewrite Hf by reflexivity| |]; reflexivity.
Qed.

(** X13: a newline after the last row makes no difference, unless that
    row is nothing but a label: the file reads the same, value or
    exception, with and without it. *)
Theorem read_snli_final_newline (pre line : str) :
  ~ In newline line -> line <> [] -> dict_mem line label_set = false ->
  read_snli ((pre ++ [newline]) ++ line ++ [newline])
  = read_snli ((pre ++ [newline]) ++ line).
Proof.
  intros Hnl Hne Hlab. unfold read_snli.
  rewrite !readlines_app, (readlines_line line [] Hnl),
    (readlines_last line Hnl Hne).
  destruct (readlines_header pre) as (x & lines & ->). simpl app.
  unfold read_snli_lines. cbn [skipn]. rewrite !map_app. cbn [map].
  destruct (split_snoc tab newline line) as (init & lastf & E1 & E2);
    [discriminate|].
  rewrite E1, E2.
  assert (Hcond : labelled (init ++ [lastf ++ [newline]])
                  = labelled (init ++ [lastf])).
  { destruct init as [|i0 init]; [|reflexivity]. simpl.
    assert (El : line = lastf).
    { rewrite <- (join_split tab line), E1. reflexivity. }
    subst lastf. unfold labelled. simpl.
    rewrite label_has_no_newline, Hlab. reflexivity. }
  rewrite !(comprehension_last_ext
              (fun row => s <- index row 1;; Ok (extract_text s)) labelled _
              (init ++ [lastf]) (init ++ [lastf ++ [newline]]) Hcond
              (fun _ => field_snoc_newline 1 init lastf)).
  rewrite !(comprehension_last_ext
              (fun row => s <- index row 2;; Ok (extract_text s)) labelled _
              (init ++ [lastf]) (init ++ [lastf ++ [newline]]) Hcond
              (fun _ => field_snoc_newline 2 init lastf)).
  rewrite (comprehension_last_ext
             (fun row => l <- index row 0;; dict_get label_set l) labelled _
             (init ++ [lastf]) (init ++ [lastf ++ [newline]]) Hcond);
    [reflexivity|].
  intros Hrec. destruct init as [|i0 init]; [|reflexivity].
  exfalso.
  assert (El : line = lastf).
  { rewrite <- (join_split tab line), E1. reflexivity. }
  subst lastf. unfold labelled in Hrec. simpl in Hrec.
  rewrite Hlab in Hrec. discriminate.
Qed.

Lemma read_snli_final_newline_witness :
  read_snli ((lit "h\n-\tx" ++ [newline]) ++ lit "neutral\tA ( dog )\tAn animal" ++ [newline])
  = read_snli ((lit "h\n-\tx" ++ [newline]) ++ lit "neutral\tA ( dog )\tAn animal").
Proof.
  apply read_snli_final_newline.
  - apply forallb_not_In. vm_compute. reflexivity.
  - intros H. apply (f_equal (@length _)) in H. vm_compute in H. discriminate H.
  - vm_compute. reflexivity.
Defined.

(** ** Further properties of [SNLIDataset] and of the loaders *)

Lemma pad_length (n : nat) (v : Vocab) (lines : list (list token)) :
  length (_pad n v lines) = length lines.
Proof. apply length_map. Qed.

(** X14: [len] counts the premises only, while indexing needs all three
    tensors: [dataset[idx]] returns a sample exactly when [idx] is below
    the number of premises, of hypotheses and of labels given to the
    constructor. *)
Theorem SNLIDataset_getitem_defined (tokenize_line : str -> list token)
  (ps hs : list str) (ls : list Z) (num_steps : nat) (v : option Vocab)
  (idx : nat) :
  let ds := SNLIDataset_init tokenize_line (ps, hs, ls) num_steps v in
  SNLIDataset_len ds = length ps /\
  ((exists s, SNLIDataset_getitem ds idx = Ok s) <->
   idx < length ps /\ idx < length hs /\ idx < length ls).
Proof.
  intros ds.
  assert (Hp : length (premises ds) = length ps)
    by (unfold ds; simpl; rewrite pad_length; apply length_map).
  assert (Hh : length (hypotheses ds) = length hs)
    by (unfold ds; simpl; rewrite pad_length; apply length_map).
  assert (Hl : labels ds = ls) by reflexivity.
  split; [exact Hp|].
  unfold SNLIDataset_getitem, index. rewrite Hl. split.
  - intros [s H].
    destruct (nth_error (premises ds) idx) eqn:E1; [|discriminate].
    destruct (nth_error (hypotheses ds) idx) eqn:E2; [|discriminate].
    destruct (nth_error ls idx) eqn:E3; [|discriminate].
    assert (N1 : nth_error (premises ds) idx <> None) by congruence.
    assert (N2 : nth_error (hypotheses ds) idx <> None) by congruence.
    assert (N3 : nth_error ls idx <> None) by congruence.
    apply nth_error_Some in N1, N2, N3. lia.
  - intros (H1 & H2 & H3).
    rewrite <- Hp in H1. rewrite <- Hh in H2.
    apply nth_error_Some in H1, H2, H3.
    destruct (nth_error (premises ds) idx); [|congruence].
    destruct (nth_error (hypotheses ds) idx); [|congruence].
    destruct (nth_error ls idx); [|congruence].
    simpl. eauto.
Qed.





Lemma load_data_snli_loaders (tokenize_line : str -> list token)
  (train_text test_text : str) (batch_size num_steps : nat)
  (train_iter test_iter : DataLoader) (v : Vocab) (dl : DataLoader) :
  load_data_snli tokenize_line train_text test_text batch_size num_steps
  = Ok (train_iter, test_iter, v) ->
  dl = train_iter \/ dl = test_iter ->
  well_formed (dataset dl) /\ Loader.batch_size dl = batch_size /\
  drop_last dl = false /\ 0 < batch_size /\
  shuffle test_iter = false /\ shuffle train_iter = true.
Proof.
  intros Hload Hdl.
  destruct (load_data_snli_inv tokenize_line _ _ _ _ _ _ _ Hload)
    as (p0 & h0 & l0 & p1 & h1 & l1 & Etr & Ete & Hbs & -> & -> & _).
  apply read_snli_lengths in Etr, Ete.
  destruct Hdl as [-> | ->]; cbn [dataset Loader.batch_size drop_last shuffle].
  - destruct (SNLIDataset_init_well_formed tokenize_line p0 h0 l0 num_steps
                None) as [Hw _]; [tauto | tauto |].
    split; [exact Hw|]. repeat (split; [reflexivity|]).
    split; [exact Hbs|]. split; reflexivity.
  - destruct (SNLIDataset_init_well_formed tokenize_line p1 h1 l1 num_steps
                (Some (vocab (SNLIDataset_init tokenize_line (p0, h0, l0)
                                num_steps None)))) as [Hw _];
      [tauto | tauto |].
    split; [exact Hw|]. repeat (split; [reflexivity|]).
    split; [exact Hbs|]. split; reflexivity.
Qed.


Lemma batch_sampler_count (batch_size : nat) (acc order : list nat) :
  0 < batch_size -> length acc < batch_size ->
  length (batch_sampler batch_size false acc order)
  = (length acc + length order + batch_size - 1) / batch_size.
Proof.
  intros Hpos. revert acc. induction order as [|i order IH]; intros acc Hacc.
  - cbn [batch_sampler negb andb length].
    destruct (Nat.ltb_spec 0 (length acc)) as [Ha|Ha]; cbn [length].
    + apply Nat.div_unique with (r := length acc - 1); lia.
    + symmetry. apply Nat.div_small. lia.
  - cbn [batch_sampler].
    assert (Hl : length (acc ++ [i]) = S (length acc))
      by (rewrite length_app; simpl; lia).
    destruct (Nat.eqb_spec (length (acc ++ [i])) batch_size) as [E|E].
    + cbn [length]. rewrite (IH [] Hpos). cbn [length].
      replace (length acc + S (length order) + batch_size - 1)
        with (1 * batch_size + (length order + batch_size - 1)) by lia.
      rewrite Nat.div_add_l by lia. reflexivity.
    + rewrite IH by lia. cbn [length]. f_equal. lia.
Qed.

(** X17: one pass over either iterator of [load_data_snli] yields
    ceil(n / batch_size) batches for a dataset of n examples, the last,
    partial batch included. *)
Theorem load_data_snli_batch_count (tokenize_line : str -> list token)
  (train_text test_text : str) (batch_size num_steps : nat)
  (train_iter test_iter : DataLoader) (v : Vocab) :
  load_data_snli tokenize_line train_text test_text batch_size num_steps
  = Ok (train_iter, test_iter, v) ->
  forall (dl : DataLoader) (order : list nat),
    dl = train_iter \/ dl = test_iter ->
    sampler_order dl order ->
    length (iterate dl order)
    = (SNLIDataset_len (dataset dl) + batch_size - 1) / batch_size.
Proof.
  intros Hload dl order Hdl Hord.
  destruct (load_data_snli_loaders _ _ _ _ _ _ _ _ dl Hload Hdl)
    as (Hwf & Hbs & Hdrop & Hpos & _).
  destruct (sampler_order_range dl order Hord) as [Hlen _].
  unfold iterate. rewrite length_map, Hbs, Hdrop.
  rewrite batch_sampler_count by (simpl; lia). simpl. rewrite Hlen.
  reflexivity.
Qed.

Lemma load_data_snli_batch_count_witness :
  match load_data_snli split_ws
          (lit "h\n" ++ concat (repeat (lit "neutral\ta b\tb c\n") 7))
          (lit "h\n" ++ concat (repeat (lit "entailment\tc\ta b c\n") 5))
          3 4
  with
  | Ok (train_iter, test_iter, _) =>
      length (iterate train_iter [6; 0; 3; 1; 5; 2; 4]) = 3 /\
      length (iterate test_iter (seq 0 5)) = 2
  | Raise _ => False
  end.
Proof.
  set (train := lit "h\n" ++ concat (repeat (lit "neutral\ta b\tb c\n") 7)).
  set (test := lit "h\n" ++ concat (repeat (lit "entailment\tc\ta b c\n") 5)).
  assert (Hs : match load_data_snli split_ws train test 3 4 with
               | Ok (train_iter, test_iter, _) =>
                   (shuffle train_iter = true /\
                    SNLIDataset_len (dataset train_iter) = 7) /\
                   (shuffle test_iter = false /\
                    SNLIDataset_len (dataset test_iter) = 5)
               | Raise _ => False
               end) by (vm_compute; auto).
  destruct (load_data_snli split_ws train test 3 4)
    as [[[train_iter test_iter] v]|e] eqn:E; [|exact Hs].
  destruct Hs as [[Str Ltr] [Ste Lte]].
  pose proof (load_data_snli_batch_count split_ws train test 3 4
                train_iter test_iter v E) as H.
  split.
  - rewrite (H train_iter [6; 0; 3; 1; 5; 2; 4]); [rewrite Ltr; reflexivity|auto|].
    unfold sampler_order. rewrite Str, Ltr. simpl.
    apply (Permutation_trans (l' := [6; 0; 1; 2; 3; 4; 5])).
    + apply Permutation_sym. apply (Permutation_cons_app [0; 1; 2; 3; 4; 5] [] 6).
      apply Permutation_refl.
    + constructor. constructor.
      apply (Permutation_trans (l' := [3; 1; 2; 4; 5])).
      * apply Permutation_sym. apply (Permutation_cons_app [1; 2] [4; 5] 3).
        apply Permutation_refl.
      * constructor. constructor.
        apply (Permutation_trans (l' := [5; 2; 4])).
        -- apply Permutation_sym. apply (Permutation_cons_app [2; 4] [] 5).
           apply Permutation_refl.
        -- apply Permutation_refl.
  - rewrite (H test_iter (seq 0 5)); [rewrite Lte; reflexivity|auto|].
    unfold sampler_order. rewrite Ste, Lte. reflexivity.
Defined.


Lemma read_snli_count (text : str) (ps hs : list str) (ls : list Z) :
  read_snli text = Ok (ps, hs, ls) ->
  length ps = length (filter recognized (rows_of text)).
Proof.
  unfold read_snli, read_snli_lines. fold (rows_of text).
  destruct (comprehension (fun row => s <- index row 1;; _) labelled
              (rows_of text)) as [ps'|] eqn:E1; simpl; [|discriminate].
  destruct (comprehension (fun row => s <- index row 2;; _) labelled
              (rows_of text)) as [hs'|] eqn:E2; simpl; [|discriminate].
  destruct (comprehension (fun row => l <- index row 0;; _) labelled
              (rows_of text)) as [ls'|] eqn:E3; simpl; [|discriminate].
  intros H. inversion H; subst.
  exact (comprehension_length _ labelled recognized _ _
           (labelled_rows_of text) E1).
Qed.

(** X18: the datasets behind the two iterators of [load_data_snli] have
    one example per row with a recognized label: the length of the
    training (test) dataset is the number of rows after the first line
    of the training (test) file whose first field is a label. *)
Theorem load_data_snli_dataset_sizes (tokenize_line : str -> list token)
  (train_text test_text : str) (batch_size num_steps : nat)
  (train_iter test_iter : DataLoader) (v : Vocab) :
  load_data_snli tokenize_line train_text test_text batch_size num_steps
  = Ok (train_iter, test_iter, v) ->
  SNLIDataset_len (dataset train_iter)
  = length (filter recognized (rows_of train_text)) /\
  SNLIDataset_len (dataset test_iter)
  = length (filter recognized (rows_of test_text)).
Proof.
  intros Hload.
  destruct (load_data_snli_inv tokenize_line _ _ _ _ _ _ _ Hload)
    as (p0 & h0 & l0 & p1 & h1 & l1 & Etr & Ete & _ & -> & -> & _).
  apply read_snli_count in Etr, Ete.
  unfold SNLIDataset_len. simpl. unfold _pad, tokenize.
  rewrite !length_map. auto.
Qed.

Lemma load_data_snli_dataset_sizes_witness :
  match load_data_snli split_ws
          (lit "h\nneutral\ta b\tb c\n-\tx\ty\nentailment\tc\td\n")
          (lit "h\n-\tx\ty\ncontradiction\tc\ta b c\n")
          2 4
  with
  | Ok (train_iter, test_iter, _) =>
      SNLIDataset_len (dataset train_iter) = 2 /\
      SNLIDataset_len (dataset test_iter) = 1
  | Raise _ => False
  end.
Proof.
  destruct (load_data_snli split_ws
              (lit "h\nneutral\ta b\tb c\n-\tx\ty\nentailment\tc\td\n")
              (lit "h\n-\tx\ty\ncontradiction\tc\ta b c\n") 2 4)
    as [[[train_iter test_iter] v]|e] eqn:E.
  - destruct (load_data_snli_dataset_sizes _ _ _ _ _ _ _ _ E) as [H1 H2].
    rewrite H1, H2. vm_compute. auto.
  - vm_compute in E. discriminate E.
Defined.
